(** * AviReader8: the sample AVI (vfw) input plug-in for AviUtl ExEdit2

    A shallow embedding of [AviReader8.cpp].  The plug-in is a thin adapter
    between the host and the Win32 AVIFile service, so the embedding is a
    state-and-error monad over
      - the heap of [GlobalAlloc] blocks the adapter owns (the [FILE_HANDLE]
        record of each open file and the stream format buffers), and
      - the log of every Win32 call the adapter makes, with its arguments and
        its results.
    The Win32 side is an environment [Env]: one response function per API,
    each depending on the calls made so far. *)

From stdpp Require Import strings gmap list.
From Stdlib Require Import ZArith Lia Ascii.

Open Scope Z_scope.

(** ** Machine integers and constants *)

(** [int] and [LONG] are 32-bit two's complement. *)
Definition wrap32 (z : Z) : Z := (z + 2 ^ 31) mod 2 ^ 32 - 2 ^ 31.

Definition NULL : Z := 0.
Definition S_OK : Z := 0.

(** [mmioFOURCC] of vfw.h: four character codes packed little-endian. *)
Definition mmioFOURCC (c0 c1 c2 c3 : ascii) : Z :=
  let b (c : ascii) := Z.of_nat (nat_of_ascii c) in
  Z.lor (b c0) (Z.lor (Z.shiftl (b c1) 8)
    (Z.lor (Z.shiftl (b c2) 16) (Z.shiftl (b c3) 24))).

Definition streamtypeVIDEO : Z := mmioFOURCC "v"%char "i"%char "d"%char "s"%char.
Definition streamtypeAUDIO : Z := mmioFOURCC "a"%char "u"%char "d"%char "s"%char.

(** ** Data *)

(** Of [AVIFILEINFO] the adapter reads [dwStreams] only. *)
Record AVIFILEINFO := { dwStreams : Z }.

(** Of [AVISTREAMINFO] the adapter reads these four fields. *)
Record AVISTREAMINFO :=
  { fccType : Z; dwScale : Z; dwRate : Z; dwLength : Z }.

Record FILE_HANDLE := {
  flag : Z;
  pfile : Z;
  pvideo : Z;
  paudio : Z;
  fileinfo : AVIFILEINFO;
  videoinfo : AVISTREAMINFO;
  audioinfo : AVISTREAMINFO;
  videoformat : Z;
  videoformatsize : Z;
  audioformat : Z;
  audioformatsize : Z
}.

Definition FLAG_VIDEO : Z := 1.
Definition FLAG_AUDIO : Z := 2.

Definition zero_AVISTREAMINFO : AVISTREAMINFO :=
  {| fccType := 0; dwScale := 0; dwRate := 0; dwLength := 0 |}.

(** What [ZeroMemory(fp, sizeof(FILE_HANDLE))] leaves. *)
Definition zero_FILE_HANDLE : FILE_HANDLE :=
  {| flag := 0; pfile := NULL; pvideo := NULL; paudio := NULL;
     fileinfo := {| dwStreams := 0 |};
     videoinfo := zero_AVISTREAMINFO; audioinfo := zero_AVISTREAMINFO;
     videoformat := NULL; videoformatsize := 0;
     audioformat := NULL; audioformatsize := 0 |}.

Definition set_flag (v : Z) (h : FILE_HANDLE) : FILE_HANDLE :=
  {| flag := v; pfile := pfile h; pvideo := pvideo h; paudio := paudio h;
     fileinfo := fileinfo h; videoinfo := videoinfo h; audioinfo := audioinfo h;
     videoformat := videoformat h; videoformatsize := videoformatsize h;
     audioformat := audioformat h; audioformatsize := audioformatsize h |}.
Definition set_pfile (v : Z) (h : FILE_HANDLE) : FILE_HANDLE :=
  {| flag := flag h; pfile := v; pvideo := pvideo h; paudio := paudio h;
     fileinfo := fileinfo h; videoinfo := videoinfo h; audioinfo := audioinfo h;
     videoformat := videoformat h; videoformatsize := videoformatsize h;
     audioformat := audioformat h; audioformatsize := audioformatsize h |}.
Definition set_pvideo (v : Z) (h : FILE_HANDLE) : FILE_HANDLE :=
  {| flag := flag h; pfile := pfile h; pvideo := v; paudio := paudio h;
     fileinfo := fileinfo h; videoinfo := videoinfo h; audioinfo := audioinfo h;
     videoformat := videoformat h; videoformatsize := videoformatsize h;
     audioformat := audioformat h; audioformatsize := audioformatsize h |}.
Definition set_paudio (v : Z) (h : FILE_HANDLE) : FILE_HANDLE :=
  {| flag := flag h; pfile := pfile h; pvideo := pvideo h; paudio := v;
     fileinfo := fileinfo h; videoinfo := videoinfo h; audioinfo := audioinfo h;
     videoformat := videoformat h; videoformatsize := videoformatsize h;
     audioformat := audioformat h; audioformatsize := audioformatsize h |}.
Definition set_fileinfo (v : AVIFILEINFO) (h : FILE_HANDLE) : FILE_HANDLE :=
  {| flag := flag h; pfile := pfile h; pvideo := pvideo h; paudio := paudio h;
     fileinfo := v; videoinfo := videoinfo h; audioinfo := audioinfo h;
     videoformat := videoformat h; videoformatsize := videoformatsize h;
     audioformat := audioformat h; audioformatsize := audioformatsize h |}.
Definition set_videoinfo (v : AVISTREAMINFO) (h : FILE_HANDLE) : FILE_HANDLE :=
  {| flag := flag h; pfile := pfile h; pvideo := pvideo h; paudio := paudio h;
     fileinfo := fileinfo h; videoinfo := v; audioinfo := audioinfo h;
     videoformat := videoformat h; videoformatsize := videoformatsize h;
     audioformat := audioformat h; audioformatsize := audioformatsize h |}.
Definition set_audioinfo (v : AVISTREAMINFO) (h : FILE_HANDLE) : FILE_HANDLE :=
  {| flag := flag h; pfile := pfile h; pvideo := pvideo h; paudio := paudio h;
     fileinfo := fileinfo h; videoinfo := videoinfo h; audioinfo := v;
     videoformat := videoformat h; videoformatsize := videoformatsize h;
     audioformat := audioformat h; audioformatsize := audioformatsize h |}.
Definition set_videoformat (v : Z) (h : FILE_HANDLE) : FILE_HANDLE :=
  {| flag := flag h; pfile := pfile h; pvideo := pvideo h; paudio := paudio h;
     fileinfo := fileinfo h; videoinfo := videoinfo h; audioinfo := audioinfo h;
     videoformat := v; videoformatsize := videoformatsize h;
     audioformat := audioformat h; audioformatsize := audioformatsize h |}.
Definition set_videoformatsize (v : Z) (h : FILE_HANDLE) : FILE_HANDLE :=
  {| flag := flag h; pfile := pfile h; pvideo := pvideo h; paudio := paudio h;
     fileinfo := fileinfo h; videoinfo := videoinfo h; audioinfo := audioinfo h;
     videoformat := videoformat h; videoformatsize := v;
     audioformat := audioformat h; audioformatsize := audioformatsize h |}.
Definition set_audioformat (v : Z) (h : FILE_HANDLE) : FILE_HANDLE :=
  {| flag := flag h; pfile := pfile h; pvideo := pvideo h; paudio := paudio h;
     fileinfo := fileinfo h; videoinfo := videoinfo h; audioinfo := audioinfo h;
     videoformat := videoformat h; videoformatsize := videoformatsize h;
     audioformat := v; audioformatsize := audioformatsize h |}.
Definition set_audioformatsize (v : Z) (h : FILE_HANDLE) : FILE_HANDLE :=
  {| flag := flag h; pfile := pfile h; pvideo := pvideo h; paudio := paudio h;
     fileinfo := fileinfo h; videoinfo := videoinfo h; audioinfo := audioinfo h;
     videoformat := videoformat h; videoformatsize := videoformatsize h;
     audioformat := audioformat h; audioformatsize := v |}.

(** Modelled from the spec: the host's [INPUT_INFO] record of input2.h, which
    is not among the sources.  The spec lists its fields (capability flags;
    rate, scale, frame count, format pointer and length for video; sample
    count, format pointer and length for audio).  The integer fields are
    taken as [int] and the two capability bits as 1 and 2; no theorem below
    depends on the values of the bits. *)
Record INPUT_INFO := {
  ii_flag : Z;
  ii_rate : Z;
  ii_scale : Z;
  ii_n : Z;
  ii_format : Z;
  ii_format_size : Z;
  ii_audio_n : Z;
  ii_audio_format : Z;
  ii_audio_format_size : Z
}.

Definition INPUT_INFO_FLAG_VIDEO : Z := 1.
Definition INPUT_INFO_FLAG_AUDIO : Z := 2.

(** ** The Win32 calls the adapter makes *)

Inductive Call :=
| CGlobalAlloc (dwBytes ret : Z)
| CGlobalFree (p : Z)
| CAVIFileOpen (file : string) (hr ppfile : Z)
| CAVIFileInfo (pf hr : Z) (info : AVIFILEINFO)
| CAVIFileGetStream (pf fcc lParam hr pas : Z)
| CAVIStreamInfo (pas : Z) (asi : AVISTREAMINFO)
| CAVIStreamFormatSize (pas lPos size : Z)
| CAVIStreamReadFormat (pas lPos lpFormat cbIn cbOut : Z)
| CAVIStreamRead (pas lStart lSamples lpBuffer cbBuffer : Z)
    (plBytes plSamples : bool) (hr bytes samples : Z)
| CAVIStreamRelease (pas : Z)
| CAVIFileRelease (pf : Z).

(** The environment: what each call answers, given the calls made so far.
    Out-parameters are returned next to the [HRESULT].  [AVIStreamRead]
    answers the byte count (for [plBytes]) and the sample count (for
    [plSamples]); the caller receives whichever it passed a pointer for. *)
Record Env := {
  sizeof_FILE_HANDLE : Z;
  env_GlobalAlloc : list Call -> Z -> Z;
  env_AVIFileOpen : list Call -> string -> Z * Z;
  env_AVIFileInfo : list Call -> Z -> Z * AVIFILEINFO;
  env_AVIFileGetStream : list Call -> Z -> Z -> Z -> Z * Z;
  env_AVIStreamInfo : list Call -> Z -> AVISTREAMINFO;
  env_AVIStreamFormatSize : list Call -> Z -> Z -> Z;
  env_AVIStreamReadFormat : list Call -> Z -> Z -> Z -> Z -> Z * option (list Z);
  env_AVIStreamRead : list Call -> Z -> Z -> Z -> Z -> Z -> Z * Z * Z
}.

(** ** Heap, state and monad *)

(** A [GlobalAlloc] block holds a [FILE_HANDLE] record or a format buffer;
    a [GMEM_FIXED] buffer is uninitialised ([None]) until it is written. *)
Inductive Block :=
| BSession (h : FILE_HANDLE)
| BBuffer (bytes : option (list Z)).

Record State := {
  heap : gmap Z Block;
  log : list Call
}.

Inductive Fault :=
| NullDereference
| InvalidPointer
| UninitializedRead
| OutOfBounds.

Inductive Res (A : Type) :=
| Ok (a : A) (s : State)
| Crash (f : Fault).
Arguments Ok {A} a s.
Arguments Crash {A} f.

Definition M (A : Type) : Type := State -> Res A.

Definition ret {A} (a : A) : M A := fun s => Ok a s.
Definition bind {A B} (m : M A) (k : A -> M B) : M B :=
  fun s => match m s with
           | Ok a s' => k a s'
           | Crash f => Crash f
           end.

Notation "'let*' x ':=' m 'in' k" := (bind m (fun x => k))
  (at level 10, x pattern, m at level 100, k at level 200).
Notation "m ';;;' k" := (bind m (fun _ => k))
  (at level 100, k at level 200, right associativity).

(** Field access through a [FILE_HANDLE*]: a null pointer and a pointer to
    anything but a live [FILE_HANDLE] block are faults. *)
Definition load (fp : Z) : M FILE_HANDLE :=
  fun s =>
    if decide (fp = NULL) then Crash NullDereference
    else match heap s !! fp with
         | Some (BSession h) => Ok h s
         | _ => Crash InvalidPointer
         end.

Definition store (fp : Z) (f : FILE_HANDLE -> FILE_HANDLE) : M unit :=
  let* h := load fp in
  fun s => Ok tt {| heap := <[fp := BSession (f h)]> (heap s); log := log s |}.

Definition ZeroMemory (fp : Z) : M unit :=
  fun s => Ok tt {| heap := <[fp := BSession zero_FILE_HANDLE]> (heap s);
                    log := log s |}.

(** [WAVEFORMATEX::nBlockAlign] is the little-endian [WORD] at byte offset 12
    (after wFormatTag, nChannels, nSamplesPerSec and nAvgBytesPerSec). *)
Definition nBlockAlign_offset : nat := 12.

Definition read_WORD (bytes : list Z) (off : nat) : option Z :=
  match bytes !! off, bytes !! S off with
  | Some lo, Some hi => Some (Z.lor (Z.land lo 255) (Z.shiftl (Z.land hi 255) 8))
  | _, _ => None
  end.

(** [((WAVEFORMATEX* )p)->nBlockAlign] *)
Definition load_nBlockAlign (p : Z) : M Z :=
  fun s =>
    if decide (p = NULL) then Crash NullDereference
    else match heap s !! p with
         | Some (BBuffer (Some bytes)) =>
             match read_WORD bytes nBlockAlign_offset with
             | Some w => Ok w s
             | None => Crash OutOfBounds
             end
         | Some (BBuffer None) => Crash UninitializedRead
         | _ => Crash InvalidPointer
         end.

Section Adapter.

Variable E : Env.

Definition emit (c : Call) (s : State) : State :=
  {| heap := heap s; log := log s ++ [c] |}.

(** *** Win32 primitives *)

Definition GlobalAlloc (dwBytes : Z) : M Z :=
  fun s =>
    let p := env_GlobalAlloc E (log s) dwBytes in
    Ok p {| heap := if decide (p = NULL) then heap s
                    else <[p := BBuffer None]> (heap s);
            log := log s ++ [CGlobalAlloc dwBytes p] |}.

Definition GlobalFree (p : Z) : M unit :=
  fun s => Ok tt {| heap := delete p (heap s);
                    log := log s ++ [CGlobalFree p] |}.

Definition AVIFileOpen (file : string) : M (Z * Z) :=
  fun s =>
    let '(hr, pf) := env_AVIFileOpen E (log s) file in
    Ok (hr, pf) (emit (CAVIFileOpen file hr pf) s).

Definition AVIFileInfo (pf : Z) : M (Z * AVIFILEINFO) :=
  fun s =>
    let '(hr, fi) := env_AVIFileInfo E (log s) pf in
    Ok (hr, fi) (emit (CAVIFileInfo pf hr fi) s).

Definition AVIFileGetStream (pf fcc lParam : Z) : M (Z * Z) :=
  fun s =>
    let '(hr, pas) := env_AVIFileGetStream E (log s) pf fcc lParam in
    Ok (hr, pas) (emit (CAVIFileGetStream pf fcc lParam hr pas) s).

Definition AVIStreamInfo (pas : Z) : M AVISTREAMINFO :=
  fun s =>
    let asi := env_AVIStreamInfo E (log s) pas in
    Ok asi (emit (CAVIStreamInfo pas asi) s).

Definition AVIStreamFormatSize (pas lPos : Z) : M Z :=
  fun s =>
    let size := env_AVIStreamFormatSize E (log s) pas lPos in
    Ok size (emit (CAVIStreamFormatSize pas lPos size) s).

(** The service fills the buffer at [lpFormat], when there is one, and
    answers the new value of [*lpcbFormat]. *)
Definition AVIStreamReadFormat (pas lPos lpFormat cb : Z) : M Z :=
  fun s =>
    let '(cb', data) := env_AVIStreamReadFormat E (log s) pas lPos lpFormat cb in
    Ok cb' {| heap := match heap s !! lpFormat, data with
                      | Some (BBuffer _), Some bytes =>
                          <[lpFormat := BBuffer (Some bytes)]> (heap s)
                      | _, _ => heap s
                      end;
              log := log s ++ [CAVIStreamReadFormat pas lPos lpFormat cb cb'] |}.

(** [plBytes] and [plSamples] say which of the two out-pointers the caller
    passed (the other is [NULL]); the caller's buffer is the host's memory. *)
Definition AVIStreamRead (pas lStart lSamples lpBuffer cbBuffer : Z)
    (plBytes plSamples : bool) : M (Z * Z * Z) :=
  fun s =>
    let '(hr, bytes, samples) :=
      env_AVIStreamRead E (log s) pas lStart lSamples lpBuffer cbBuffer in
    Ok (hr, bytes, samples)
       (emit (CAVIStreamRead pas lStart lSamples lpBuffer cbBuffer
                plBytes plSamples hr bytes samples) s).

Definition AVIStreamRelease (pas : Z) : M unit :=
  fun s => Ok tt (emit (CAVIStreamRelease pas) s).

Definition AVIFileRelease (pf : Z) : M unit :=
  fun s => Ok tt (emit (CAVIFileRelease pf) s).

(** *** func_open *)

(** One turn of the stream loop of [func_open], for stream index [i]. *)
Definition open_stream (fp : Z) (i : Z) : M unit :=
  let* h := load fp in
  let* (hr, pas) := AVIFileGetStream (pfile h) 0 (wrap32 i) in
  if decide (hr = S_OK) then
    let* asi := AVIStreamInfo pas in
    if decide (fccType asi = streamtypeVIDEO) then
      store fp (set_pvideo pas);;;
      store fp (set_videoinfo asi);;;
      let* h := load fp in
      let* size := AVIStreamFormatSize (pvideo h) 0 in
      store fp (set_videoformatsize size);;;
      let* h := load fp in
      let* p := GlobalAlloc (videoformatsize h) in
      store fp (set_videoformat p);;;
      let* h := load fp in
      if decide (videoformat h <> NULL) then
        let* size := AVIStreamReadFormat (pvideo h) 0 (videoformat h)
                       (videoformatsize h) in
        store fp (set_videoformatsize size);;;
        store fp (fun h => set_flag (Z.lor (flag h) FLAG_VIDEO) h)
      else
        AVIStreamRelease pas
    else if decide (fccType asi = streamtypeAUDIO) then
      store fp (set_paudio pas);;;
      store fp (set_audioinfo asi);;;
      let* h := load fp in
      let* size := AVIStreamFormatSize (paudio h) 0 in
      store fp (set_audioformatsize size);;;
      let* h := load fp in
      let* p := GlobalAlloc (audioformatsize h) in
      store fp (set_audioformat p);;;
      let* h := load fp in
      if decide (videoformat h <> NULL) then
        let* size := AVIStreamReadFormat (paudio h) 0 (audioformat h)
                       (audioformatsize h) in
        store fp (set_audioformatsize size);;;
        store fp (fun h => set_flag (Z.lor (flag h) FLAG_AUDIO) h)
      else
        AVIStreamRelease pas
    else
      AVIStreamRelease pas
  else ret tt.

(** [for (DWORD i = ...; i < fp->fileinfo.dwStreams; i++)], with [n] turns
    left; the body never writes [fileinfo]. *)
Fixpoint stream_loop (fp : Z) (i : Z) (n : nat) : M unit :=
  match n with
  | O => ret tt
  | S n' => open_stream fp i;;; stream_loop fp (i + 1) n'
  end.

Definition func_open (file : string) : M Z :=
  let* fp := GlobalAlloc (sizeof_FILE_HANDLE E) in
  if decide (fp = NULL) then ret NULL
  else
    ZeroMemory fp;;;
    let* (hr, pf) := AVIFileOpen file in
    store fp (set_pfile pf);;;
    if decide (hr <> S_OK) then
      GlobalFree fp;;;
      ret NULL
    else
      let* h := load fp in
      let* (hr, fi) := AVIFileInfo (pfile h) in
      store fp (set_fileinfo fi);;;
      (if decide (hr = S_OK) then
         let* h := load fp in
         stream_loop fp 0 (Z.to_nat (dwStreams (fileinfo h)))
       else ret tt);;;
      ret fp.

(** *** func_close *)

Definition func_close (ih : Z) : M bool :=
  let fp := ih in
  (if decide (fp <> NULL) then
     let* h := load fp in
     (if decide (Z.land (flag h) FLAG_AUDIO <> 0) then
        AVIStreamRelease (paudio h);;;
        let* h := load fp in
        GlobalFree (audioformat h)
      else ret tt);;;
     let* h := load fp in
     (if decide (Z.land (flag h) FLAG_VIDEO <> 0) then
        AVIStreamRelease (pvideo h);;;
        let* h := load fp in
        GlobalFree (videoformat h)
      else ret tt);;;
     let* h := load fp in
     AVIFileRelease (pfile h);;;
     GlobalFree fp
   else ret tt);;;
  ret true.

(** *** func_info_get *)

(** The fields of [iip] are [int]; the stream info fields are [DWORD]. *)
Definition func_info_get (ih : Z) (iip : INPUT_INFO) : M (bool * INPUT_INFO) :=
  let fp := ih in
  let iip :=
    {| ii_flag := 0; ii_rate := ii_rate iip; ii_scale := ii_scale iip;
       ii_n := ii_n iip; ii_format := ii_format iip;
       ii_format_size := ii_format_size iip; ii_audio_n := ii_audio_n iip;
       ii_audio_format := ii_audio_format iip;
       ii_audio_format_size := ii_audio_format_size iip |} in
  let* h := load fp in
  let iip :=
    if decide (Z.land (flag h) FLAG_VIDEO <> 0) then
      {| ii_flag := Z.lor (ii_flag iip) INPUT_INFO_FLAG_VIDEO;
         ii_rate := wrap32 (dwRate (videoinfo h));
         ii_scale := wrap32 (dwScale (videoinfo h));
         ii_n := wrap32 (dwLength (videoinfo h));
         ii_format := videoformat h;
         ii_format_size := videoformatsize h;
         ii_audio_n := ii_audio_n iip;
         ii_audio_format := ii_audio_format iip;
         ii_audio_format_size := ii_audio_format_size iip |}
    else iip in
  let* h := load fp in
  let iip :=
    if decide (Z.land (flag h) FLAG_AUDIO <> 0) then
      {| ii_flag := Z.lor (ii_flag iip) INPUT_INFO_FLAG_AUDIO;
         ii_rate := ii_rate iip; ii_scale := ii_scale iip;
         ii_n := ii_n iip; ii_format := ii_format iip;
         ii_format_size := ii_format_size iip;
         ii_audio_n := wrap32 (dwLength (audioinfo h));
         ii_audio_format := audioformat h;
         ii_audio_format_size := audioformatsize h |}
    else iip in
  ret (true, iip).

(** *** func_read_video, func_read_audio *)

Definition func_read_video (ih : Z) (frame : Z) (buf : Z) : M Z :=
  let fp := ih in
  let* h := load fp in
  let* (hr, videosize, _) :=
    AVIStreamRead (pvideo h) frame 1 NULL NULL true false in
  if decide (hr <> S_OK) then ret 0
  else
    let* h := load fp in
    let* (hr, size, _) :=
      AVIStreamRead (pvideo h) frame 1 buf videosize true false in
    if decide (hr <> S_OK) then ret 0
    else ret size.

Definition func_read_audio (ih : Z) (start length : Z) (buf : Z) : M Z :=
  let fp := ih in
  let* h := load fp in
  let* samplesize := load_nBlockAlign (audioformat h) in
  let* h := load fp in
  let* (hr, _, size) :=
    AVIStreamRead (paudio h) start length buf (wrap32 (samplesize * length))
      false true in
  if decide (hr <> S_OK) then ret 0
  else ret size.

End Adapter.

(** ** A concrete service, for running the adapter

    A file is a list of streams; the allocator hands out fresh addresses and
    fails at the listed allocation numbers (counted from 0 over the log). *)

Record StreamFx := {
  sx_info : AVISTREAMINFO;
  sx_format : list Z;
  sx_frame_bytes : Z
}.

Record Fixture := {
  fx_exists : bool;
  fx_streams : list StreamFx;
  fx_alloc_fail : list nat
}.

Definition E_FAIL : Z := wrap32 2147500037.

Definition is_alloc (c : Call) : bool :=
  match c with CGlobalAlloc _ _ => true | _ => false end.

Definition fx_stream (fx : Fixture) (pas : Z) : option StreamFx :=
  if decide (1536 <= pas) then fx_streams fx !! Z.to_nat (pas - 1536) else None.

Definition fx_read (fx : Fixture) (pas lStart lSamples cbBuffer : Z) : Z * Z * Z :=
  match fx_stream fx pas with
  | None => (E_FAIL, 0, 0)
  | Some sx =>
      if decide (0 <= lStart < dwLength (sx_info sx)) then
        if decide (fccType (sx_info sx) = streamtypeAUDIO) then
          let ba := default 0 (read_WORD (sx_format sx) nBlockAlign_offset) in
          let n := Z.min lSamples (dwLength (sx_info sx) - lStart) in
          (S_OK, n * ba, n)
        else (S_OK, sx_frame_bytes sx, 1)
      else (E_FAIL, 0, 0)
  end.

Definition fixture_env (fx : Fixture) : Env := {|
  sizeof_FILE_HANDLE := 592;
  env_GlobalAlloc := fun hist _ =>
    let k := length (filter (fun c => is_alloc c = true) hist) in
    if decide (k ∈ fx_alloc_fail fx) then NULL
    else 65536 + 4096 * Z.of_nat k;
  env_AVIFileOpen := fun _ _ =>
    if fx_exists fx then (S_OK, 1280) else (E_FAIL, NULL);
  env_AVIFileInfo := fun _ _ =>
    (S_OK, {| dwStreams := Z.of_nat (length (fx_streams fx)) |});
  env_AVIFileGetStream := fun _ _ _ lParam =>
    if decide (0 <= lParam < Z.of_nat (length (fx_streams fx)))
    then (S_OK, 1536 + lParam) else (E_FAIL, NULL);
  env_AVIStreamInfo := fun _ pas =>
    match fx_stream fx pas with
    | Some sx => sx_info sx
    | None => zero_AVISTREAMINFO
    end;
  env_AVIStreamFormatSize := fun _ pas _ =>
    match fx_stream fx pas with
    | Some sx => Z.of_nat (length (sx_format sx))
    | None => 0
    end;
  env_AVIStreamReadFormat := fun _ pas _ _ cb =>
    match fx_stream fx pas with
    | Some sx => (Z.of_nat (length (sx_format sx)), Some (sx_format sx))
    | None => (cb, None)
    end;
  env_AVIStreamRead := fun _ pas lStart lSamples _ cbBuffer =>
    fx_read fx pas lStart lSamples cbBuffer
|}.

Definition video_fx (frames : Z) : StreamFx :=
  {| sx_info := {| fccType := streamtypeVIDEO; dwScale := 1; dwRate := 30;
                   dwLength := frames |};
     sx_format := 40 :: replicate 39 0;
     sx_frame_bytes := 6220800 |}.

(** PCM, 2 channels, 44100 Hz, 16 bit: block alignment 4. *)
Definition audio_fx (samples : Z) : StreamFx :=
  {| sx_info := {| fccType := streamtypeAUDIO; dwScale := 1; dwRate := 44100;
                   dwLength := samples |};
     sx_format := [1; 0; 2; 0; 68; 172; 0; 0; 16; 177; 2; 0; 4; 0; 16; 0; 0; 0];
     sx_frame_bytes := 0 |}.

Definition s0 : State := {| heap := ∅; log := [] |}.

Definition state_of {A} (r : Res A) : option State :=
  match r with Ok _ s => Some s | Crash _ => None end.

Definition fx_av : Fixture :=
  {| fx_exists := true; fx_streams := [video_fx 10; audio_fx 1000];
     fx_alloc_fail := [] |}.

(** The same file when the third allocation (the audio format buffer) fails. *)
Definition fx_av_audio_fail : Fixture :=
  {| fx_exists := true; fx_streams := [video_fx 10; audio_fx 1000];
     fx_alloc_fail := [2%nat] |}.

(** Two video streams, of 10 and of 20 frames. *)
Definition fx_vv : Fixture :=
  {| fx_exists := true; fx_streams := [video_fx 10; video_fx 20];
     fx_alloc_fail := [] |}.

(** The same file when the third allocation (the second video format
    buffer) fails. *)
Definition fx_vv_fail : Fixture :=
  {| fx_exists := true; fx_streams := [video_fx 10; video_fx 20];
     fx_alloc_fail := [2%nat] |}.

(** One video stream, and its format buffer cannot be allocated. *)
Definition fx_v_fail : Fixture :=
  {| fx_exists := true; fx_streams := [video_fx 10];
     fx_alloc_fail := [1%nat] |}.

(** A path the service cannot open. *)
Definition fx_missing : Fixture :=
  {| fx_exists := false; fx_streams := []; fx_alloc_fail := [] |}.

(** The state [func_open] leaves from the empty state. *)
Definition opened_state (fx : Fixture) : State :=
  default s0 (state_of (func_open (fixture_env fx) "a.avi" s0)).

Definition s_av : State := opened_state fx_av.

Definition h_av : FILE_HANDLE :=
  {| flag := 3; pfile := 1280; pvideo := 1536; paudio := 1537;
     fileinfo := {| dwStreams := 2 |};
     videoinfo := sx_info (video_fx 10); audioinfo := sx_info (audio_fx 1000);
     videoformat := 69632; videoformatsize := 40;
     audioformat := 73728; audioformatsize := 18 |}.

(** ** Reading the log *)

(** A block is live after a log when its last allocation is not followed by
    a [GlobalFree] of it. *)
Definition live_step (p : Z) (b : bool) (c : Call) : bool :=
  match c with
  | CGlobalAlloc _ q => if decide (q = p) then true else b
  | CGlobalFree q => if decide (q = p) then false else b
  | _ => b
  end.

Definition live (hist : list Call) (p : Z) : bool :=
  fold_left (live_step p) hist false.

(** The streams of one type that [AVIStreamInfo] reported, in order. *)
Definition streams_of (fcc : Z) (evs : list Call) : list (Z * AVISTREAMINFO) :=
  omap (fun c => match c with
                 | CAVIStreamInfo pas asi =>
                     if decide (fccType asi = fcc) then Some (pas, asi) else None
                 | _ => None
                 end) evs.

Definition released (evs : list Call) : list Z :=
  omap (fun c => match c with CAVIStreamRelease pas => Some pas | _ => None end) evs.

Fixpoint count (f : Call -> bool) (evs : list Call) : nat :=
  match evs with
  | [] => 0
  | c :: evs' => (if f c then 1 else 0) + count f evs'
  end.

Definition is_release (c : Call) : bool :=
  match c with CAVIStreamRelease _ => true | _ => false end.
Definition not_video_stream (c : Call) : bool :=
  match c with
  | CAVIStreamInfo _ asi => bool_decide (fccType asi <> streamtypeVIDEO)
  | _ => false
  end.
Definition failed_alloc (c : Call) : bool :=
  match c with CGlobalAlloc _ p => bool_decide (p = NULL) | _ => false end.

(** No more stream handles are released than there are streams that are not
    video streams, and allocations that failed. *)
Definition release_bound (evs : list Call) : Prop :=
  (count is_release evs <= count not_video_stream evs + count failed_alloc evs)%nat.

Definition HasVideo (h : FILE_HANDLE) : Prop := Z.land (flag h) FLAG_VIDEO <> 0.
Definition HasAudio (h : FILE_HANDLE) : Prop := Z.land (flag h) FLAG_AUDIO <> 0.

#[global] Instance HasVideo_dec (h : FILE_HANDLE) : Decision (HasVideo h) :=
  decide (Z.land (flag h) FLAG_VIDEO <> 0).
#[global] Instance HasAudio_dec (h : FILE_HANDLE) : Decision (HasAudio h) :=
  decide (Z.land (flag h) FLAG_AUDIO <> 0).

Definition zero_INPUT_INFO : INPUT_INFO :=
  {| ii_flag := 0; ii_rate := 0; ii_scale := 0; ii_n := 0; ii_format := NULL;
     ii_format_size := 0; ii_audio_n := 0; ii_audio_format := NULL;
     ii_audio_format_size := 0 |}.

(** Total correctness: [m] returns from [s], in a result and state that
    satisfy [P]. *)
Definition returns {A} (m : M A) (s : State) (P : A -> State -> Prop) : Prop :=
  match m s with
  | Ok a s' => P a s'
  | Crash _ => False
  end.

(** [ih] points to the live session [h], which has the log [l] behind it. *)
Definition session (fp : Z) (h : FILE_HANDLE) (l : list Call) (s : State) : Prop :=
  fp <> NULL /\ heap s !! fp = Some (BSession h) /\ log s = l.

(** The service handed out [pas] as a stream handle, with [S_OK]. *)
Definition got_stream (E : Env) (pas : Z) : Prop :=
  exists hist pf fcc i, env_AVIFileGetStream E hist pf fcc i = (S_OK, pas).

Definition is_info (c : Call) : bool :=
  match c with CAVIStreamInfo _ _ => true | _ => false end.

(** What holds of the session record [h] of [func_open] after the calls
    [evs], at every turn of the stream loop. *)
Record open_inv (E : Env) (evs : list Call) (h : FILE_HANDLE) : Prop := {
  inv_video_last : forall pas asi,
    last (streams_of streamtypeVIDEO evs) = Some (pas, asi) ->
    pvideo h = pas /\ videoinfo h = asi;
  inv_audio_last : forall pas asi,
    last (streams_of streamtypeAUDIO evs) = Some (pas, asi) ->
    paudio h = pas /\ audioinfo h = asi;
  inv_video_handle : HasVideo h -> got_stream E (pvideo h);
  inv_audio_handle : HasAudio h -> got_stream E (paudio h);
  inv_video_absent : streams_of streamtypeVIDEO evs = [] ->
    ~ HasVideo h /\ pvideo h = NULL /\ videoformat h = NULL;
  inv_audio_absent : streams_of streamtypeAUDIO evs = [] ->
    ~ HasAudio h /\ paudio h = NULL /\ audioformat h = NULL;
  inv_video_blob : (length (streams_of streamtypeVIDEO evs) <= 1)%nat ->
    HasVideo h -> videoformat h <> NULL;
  inv_released : release_bound evs
}.

(** [func_open] is at a turn of its loop: the session at [fp] is live, [evs]
    are the calls since [l0], and the invariant holds. *)
Definition opened (E : Env) (fp : Z) (l0 : list Call)
    (h : FILE_HANDLE) (evs : list Call) (s : State) : Prop :=
  session fp h (l0 ++ evs) s /\ live (l0 ++ evs) fp = true /\ open_inv E evs h.

(** The allocator does not hand out [fp] while it is live. *)
Definition keeps_live (E : Env) (fp : Z) : Prop :=
  forall hist size, live hist fp = true -> env_GlobalAlloc E hist size <> fp.


(** What [func_close] releases for each side. *)
Definition close_audio (h : FILE_HANDLE) : list Call :=
  if decide (HasAudio h)
  then [CAVIStreamRelease (paudio h); CGlobalFree (audioformat h)] else [].
Definition close_video (h : FILE_HANDLE) : list Call :=
  if decide (HasVideo h)
  then [CAVIStreamRelease (pvideo h); CGlobalFree (videoformat h)] else [].

(** A handle the host may pass to [func_close]: null, or a live session whose
    blocks are distinct from its format buffers. *)
Definition closable (s : State) (ih : Z) : Prop :=
  ih = NULL \/
  exists h, heap s !! ih = Some (BSession h) /\
    (HasAudio h -> audioformat h <> ih) /\ (HasVideo h -> videoformat h <> ih).

(** The host's calls between [func_open] and [func_close]. *)
Inductive ReadOp :=
| GetInfo (iip : INPUT_INFO)
| ReadVideo (frame buf : Z)
| ReadAudio (start len buf : Z).

Definition run_op (E : Env) (ih : Z) (op : ReadOp) : M unit :=
  match op with
  | GetInfo iip => func_info_get ih iip;;; ret tt
  | ReadVideo frame buf => func_read_video E ih frame buf;;; ret tt
  | ReadAudio start len buf => func_read_audio E ih start len buf;;; ret tt
  end.

Fixpoint run_ops (E : Env) (ih : Z) (ops : list ReadOp) : M unit :=
  match ops with
  | [] => ret tt
  | op :: ops' => run_op E ih op;;; run_ops E ih ops'
  end.

(** ** One turn of the stream loop, by its calls and its effect *)

Definition video_claimed (pas : Z) (asi : AVISTREAMINFO) (size p : Z)
    (h : FILE_HANDLE) : FILE_HANDLE :=
  set_videoformat p (set_videoformatsize size (set_videoinfo asi (set_pvideo pas h))).

Definition audio_claimed (pas : Z) (asi : AVISTREAMINFO) (size p : Z)
    (h : FILE_HANDLE) : FILE_HANDLE :=
  set_audioformat p (set_audioformatsize size (set_audioinfo asi (set_paudio pas h))).

(** [turn fp i h t h']: from the record [h], the turn for stream index [i]
    makes the calls [t] and leaves the record [h']. *)
Inductive turn (fp i : Z) (h : FILE_HANDLE) : list Call -> FILE_HANDLE -> Prop :=
| turn_no_stream hr pas :
    hr <> S_OK ->
    turn fp i h [CAVIFileGetStream (pfile h) 0 (wrap32 i) hr pas] h
| turn_video pas asi size p cb :
    fccType asi = streamtypeVIDEO -> p <> NULL -> p <> fp ->
    turn fp i h
      [CAVIFileGetStream (pfile h) 0 (wrap32 i) S_OK pas; CAVIStreamInfo pas asi;
       CAVIStreamFormatSize pas 0 size; CGlobalAlloc size p;
       CAVIStreamReadFormat pas 0 p size cb]
      (set_flag (Z.lor (flag h) FLAG_VIDEO)
         (set_videoformatsize cb (video_claimed pas asi size p h)))
| turn_video_nomem pas asi size :
    fccType asi = streamtypeVIDEO ->
    turn fp i h
      [CAVIFileGetStream (pfile h) 0 (wrap32 i) S_OK pas; CAVIStreamInfo pas asi;
       CAVIStreamFormatSize pas 0 size; CGlobalAlloc size NULL;
       CAVIStreamRelease pas]
      (video_claimed pas asi size NULL h)
| turn_audio pas asi size p cb :
    fccType asi = streamtypeAUDIO -> videoformat h <> NULL -> p <> fp ->
    turn fp i h
      [CAVIFileGetStream (pfile h) 0 (wrap32 i) S_OK pas; CAVIStreamInfo pas asi;
       CAVIStreamFormatSize pas 0 size; CGlobalAlloc size p;
       CAVIStreamReadFormat pas 0 p size cb]
      (set_flag (Z.lor (flag h) FLAG_AUDIO)
         (set_audioformatsize cb (audio_claimed pas asi size p h)))
| turn_audio_skip pas asi size p :
    fccType asi = streamtypeAUDIO -> videoformat h = NULL -> p <> fp ->
    turn fp i h
      [CAVIFileGetStream (pfile h) 0 (wrap32 i) S_OK pas; CAVIStreamInfo pas asi;
       CAVIStreamFormatSize pas 0 size; CGlobalAlloc size p;
       CAVIStreamRelease pas]
      (audio_claimed pas asi size p h)
| turn_other pas asi :
    fccType asi <> streamtypeVIDEO -> fccType asi <> streamtypeAUDIO ->
    turn fp i h
      [CAVIFileGetStream (pfile h) 0 (wrap32 i) S_OK pas; CAVIStreamInfo pas asi;
       CAVIStreamRelease pas]
      h.

(** [n] turns from index [i]. *)
Inductive turns (fp : Z) : Z -> nat -> FILE_HANDLE -> list Call -> FILE_HANDLE -> Prop :=
| turns_O i h : turns fp i 0 h [] h
| turns_S i n h t h1 ts h2 :
    turn fp i h t h1 -> turns fp (i + 1) n h1 ts h2 ->
    turns fp i (S n) h (t ++ ts) h2.

(** ** Reading more of the log *)

(** The arguments of the [AVIFileGetStream] calls, in order. *)
Definition getstream_args (evs : list Call) : list (Z * Z * Z) :=
  omap (fun c => match c with
                 | CAVIFileGetStream pf fcc lParam _ _ => Some (pf, fcc, lParam)
                 | _ => None
                 end) evs.

Definition is_free (c : Call) : bool :=
  match c with CGlobalFree _ => true | _ => false end.
Definition is_file_release (c : Call) : bool :=
  match c with CAVIFileRelease _ => true | _ => false end.

(** How many turns the stream loop of [func_open] makes, by what
    [AVIFileInfo] answered. *)
Definition stream_turns (hr : Z) (fi : AVIFILEINFO) : nat :=
  if decide (hr = S_OK) then Z.to_nat (dwStreams fi) else 0%nat.

(** ** Frames *)

(** The blocks [func_close] frees for the record [h] at [ih]. *)
Definition freed_by_close (ih : Z) (h : FILE_HANDLE) (q : Z) : Prop :=
  q = ih \/ (HasAudio h /\ q = audioformat h) \/ (HasVideo h /\ q = videoformat h).

(** [m] leaves the live session record [hq] at [q] where it is. *)
Definition keeps {A} (q : Z) (hq : FILE_HANDLE) (m : M A) : Prop :=
  forall s a s', m s = Ok a s' ->
    live (log s) q = true -> heap s !! q = Some (BSession hq) ->
    live (log s') q = true /\ heap s' !! q = Some (BSession hq).

(** ** The process side: DllMain, func_init, func_exit, func_config

    These make calls of their own ([AVIFileInit], [AVIFileExit],
    [MessageBox]) and touch no session; they run over a log of those
    calls. *)

Inductive ProcCall :=
| CAVIFileInit
| CAVIFileExit
| CMessageBox (hWnd : Z) (lpText lpCaption : string) (uType ret : Z).

Definition Proc (A : Type) : Type := list ProcCall -> A * list ProcCall.

Definition pret {A} (a : A) : Proc A := fun l => (a, l).
Definition pbind {A B} (m : Proc A) (k : A -> Proc B) : Proc B :=
  fun l => let '(a, l') := m l in k a l'.

Definition DLL_PROCESS_DETACH : Z := 0.
Definition DLL_PROCESS_ATTACH : Z := 1.
Definition TRUE : Z := 1.
Definition MB_OK : Z := 0.

Definition func_init : Proc unit := fun l => (tt, l ++ [CAVIFileInit]).

Definition func_exit : Proc unit := fun l => (tt, l ++ [CAVIFileExit]).

Definition DllMain (hinstDLL fdwReason lpvReserved : Z) : Proc Z :=
  pbind
    (if decide (fdwReason = DLL_PROCESS_ATTACH) then func_init
     else if decide (fdwReason = DLL_PROCESS_DETACH) then
       if decide (lpvReserved <> NULL) then pret tt
       else func_exit
     else pret tt)
    (fun _ => pret TRUE).

(** [answer] is what [MessageBox] returns, given the calls so far. *)
Definition func_config (answer : list ProcCall -> Z) (hwnd dll_hinst : Z) : Proc bool :=
  fun l =>
    (true, l ++ [CMessageBox hwnd "サンプルダイアログ" "入力設定" MB_OK (answer l)]).

(** What the loader and the host do to the DLL. *)
Inductive ProcOp :=
| Notify (hinstDLL fdwReason lpvReserved : Z)
| Configure (hwnd dll_hinst : Z).

Definition run_proc_op (answer : list ProcCall -> Z) (op : ProcOp) : Proc bool :=
  match op with
  | Notify hinstDLL fdwReason lpvReserved =>
      pbind (DllMain hinstDLL fdwReason lpvReserved)
            (fun r => pret (bool_decide (r <> 0)))
  | Configure hwnd dll_hinst => func_config answer hwnd dll_hinst
  end.

Fixpoint run_proc_ops (answer : list ProcCall -> Z) (ops : list ProcOp)
    : Proc (list bool) :=
  match ops with
  | [] => pret []
  | op :: ops' =>
      pbind (run_proc_op answer op) (fun b =>
      pbind (run_proc_ops answer ops') (fun bs => pret (b :: bs)))
  end.

(** A notification for a thread, or a configuration request. *)
Definition quiet (op : ProcOp) : Prop :=
  match op with
  | Notify _ fdwReason _ =>
      fdwReason <> DLL_PROCESS_ATTACH /\ fdwReason <> DLL_PROCESS_DETACH
  | Configure _ _ => True
  end.

Definition is_avi_call (c : ProcCall) : bool :=
  match c with CAVIFileInit | CAVIFileExit => true | CMessageBox _ _ _ _ _ => false end.

Definition avi_calls (l : list ProcCall) : list ProcCall :=
  List.filter is_avi_call l.

Definition is_configure (op : ProcOp) : bool :=
  match op with Configure _ _ => true | Notify _ _ _ => false end.

(** The two-stream file when the allocator fails twice in a row, from the
    record on. *)
Definition fx_nomem : Fixture :=
  {| fx_exists := true; fx_streams := [video_fx 10; audio_fx 1000];
     fx_alloc_fail := [0%nat; 1%nat] |}.

(** An audio stream and no video stream. *)
Definition fx_a : Fixture :=
  {| fx_exists := true; fx_streams := [audio_fx 1000]; fx_alloc_fail := [] |}.

(** The state after a second [func_open], of the two-video-stream file,
    while the first session is open. *)
Definition s_av2 : State :=
  default s0 (state_of (func_open (fixture_env fx_vv) "b.avi" s_av)).

(** * Proofs *)

(** ** Flag bits *)

Lemma land_lor_video_video (f : Z) : Z.land (Z.lor f FLAG_VIDEO) FLAG_VIDEO <> 0.
Proof.
  intros H. apply (f_equal (fun z => Z.testbit z 0)) in H.
  rewrite Z.land_spec, Z.lor_spec in H. cbn in H.
  rewrite orb_true_r in H. discriminate.
Qed.

Lemma land_lor_audio_audio (f : Z) : Z.land (Z.lor f FLAG_AUDIO) FLAG_AUDIO <> 0.
Proof.
  intros H. apply (f_equal (fun z => Z.testbit z 1)) in H.
  rewrite Z.land_spec, Z.lor_spec in H. cbn in H.
  rewrite orb_true_r in H. discriminate.
Qed.

Lemma land_lor_audio_video (f : Z) :
  Z.land (Z.lor f FLAG_AUDIO) FLAG_VIDEO = Z.land f FLAG_VIDEO.
Proof. rewrite Z.land_lor_distr_l. cbn. apply Z.lor_0_r. Qed.

Lemma land_lor_video_audio (f : Z) :
  Z.land (Z.lor f FLAG_VIDEO) FLAG_AUDIO = Z.land f FLAG_AUDIO.
Proof. rewrite Z.land_lor_distr_l. cbn. apply Z.lor_0_r. Qed.

Lemma wrap32_small (z : Z) : - 2 ^ 31 <= z < 2 ^ 31 -> wrap32 z = z.
Proof. intros H. unfold wrap32. rewrite Z.mod_small; lia. Qed.

(** ** The log *)

Lemma live_snoc (l : list Call) (c : Call) (p : Z) :
  live (l ++ [c]) p = live_step p (live l p) c.
Proof. unfold live. rewrite fold_left_app. reflexivity. Qed.

Lemma streams_of_app (fcc : Z) (l1 l2 : list Call) :
  streams_of fcc (l1 ++ l2) = streams_of fcc l1 ++ streams_of fcc l2.
Proof. apply omap_app. Qed.

(** ** Rules for [returns] *)

Lemma returns_ret {A} (a : A) (s : State) (P : A -> State -> Prop) :
  P a s -> returns (ret a) s P.
Proof. exact id. Qed.

Lemma returns_bind {A B} (m : M A) (k : A -> M B) (s : State)
    (P : B -> State -> Prop) :
  returns m s (fun a s' => returns (k a) s' P) -> returns (bind m k) s P.
Proof. unfold returns, bind. destruct (m s); auto. Qed.

Lemma returns_weaken {A} (m : M A) (s : State) (P Q : A -> State -> Prop) :
  (forall a s', P a s' -> Q a s') -> returns m s P -> returns m s Q.
Proof. unfold returns. destruct (m s); auto. Qed.

Lemma returns_inv {A} (m : M A) (s : State) (P : A -> State -> Prop) :
  returns m s P -> exists a s', m s = Ok a s' /\ P a s'.
Proof. unfold returns. destruct (m s); [eauto | tauto]. Qed.

Lemma returns_load fp h l s (P : FILE_HANDLE -> State -> Prop) :
  session fp h l s -> P h s -> returns (load fp) s P.
Proof.
  intros (Hn & Hh & _) HP. unfold returns, load.
  destruct (decide (fp = NULL)); [done|]. rewrite Hh. exact HP.
Qed.

Lemma returns_store fp f h l s (P : unit -> State -> Prop) :
  session fp h l s ->
  (forall s', session fp (f h) l s' -> P tt s') ->
  returns (store fp f) s P.
Proof.
  intros Hs HP. unfold store. apply returns_bind.
  eapply returns_load; [eassumption|]. destruct Hs as (Hn & Hh & Hl).
  apply HP. split; [done|]. split; [|done]. cbn. apply lookup_insert_eq.
Qed.

Section Rules.

Variable E : Env.

Lemma session_emit fp h l s c :
  session fp h l s -> session fp h (l ++ [c]) (emit c s).
Proof.
  intros (Hn & Hh & Hl). split; [done|]. split; cbn; congruence.
Qed.

Lemma returns_AVIFileGetStream fp h l s pf fcc i (P : Z * Z -> State -> Prop) :
  session fp h l s ->
  (forall hr pas s', env_AVIFileGetStream E l pf fcc i = (hr, pas) ->
     session fp h (l ++ [CAVIFileGetStream pf fcc i hr pas]) s' -> P (hr, pas) s') ->
  returns (AVIFileGetStream E pf fcc i) s P.
Proof.
  intros Hs HP. unfold returns, AVIFileGetStream.
  pose proof Hs as (_ & _ & Hl). rewrite Hl.
  destruct (env_AVIFileGetStream E l pf fcc i) as [hr pas] eqn:He.
  apply HP; [done|]. by apply session_emit.
Qed.

Lemma returns_AVIStreamInfo fp h l s pas (P : AVISTREAMINFO -> State -> Prop) :
  session fp h l s ->
  (forall s', session fp h (l ++ [CAVIStreamInfo pas (env_AVIStreamInfo E l pas)]) s' ->
     P (env_AVIStreamInfo E l pas) s') ->
  returns (AVIStreamInfo E pas) s P.
Proof.
  intros Hs HP. unfold returns, AVIStreamInfo.
  pose proof Hs as (_ & _ & Hl). rewrite Hl. apply HP. by apply session_emit.
Qed.

Lemma returns_AVIStreamFormatSize fp h l s pas lPos (P : Z -> State -> Prop) :
  session fp h l s ->
  (forall size s', session fp h (l ++ [CAVIStreamFormatSize pas lPos size]) s' ->
     P size s') ->
  returns (AVIStreamFormatSize E pas lPos) s P.
Proof.
  intros Hs HP. unfold returns, AVIStreamFormatSize.
  pose proof Hs as (_ & _ & Hl). rewrite Hl. apply HP. by apply session_emit.
Qed.

Lemma returns_AVIStreamRelease fp h l s pas (P : unit -> State -> Prop) :
  session fp h l s ->
  (forall s', session fp h (l ++ [CAVIStreamRelease pas]) s' -> P tt s') ->
  returns (AVIStreamRelease pas) s P.
Proof. intros Hs HP. apply HP. by apply session_emit. Qed.

Lemma returns_AVIStreamReadFormat fp h l s pas lPos lpFormat cb
    (P : Z -> State -> Prop) :
  session fp h l s ->
  (forall cb' s',
     session fp h (l ++ [CAVIStreamReadFormat pas lPos lpFormat cb cb']) s' ->
     P cb' s') ->
  returns (AVIStreamReadFormat E pas lPos lpFormat cb) s P.
Proof.
  intros Hs HP. unfold returns, AVIStreamReadFormat.
  destruct (env_AVIStreamReadFormat E (log s) pas lPos lpFormat cb) as [cb' data].
  apply HP. destruct Hs as (Hn & Hh & Hl).
  split; [done|]. split; [|cbn; congruence]. cbn.
  destruct (heap s !! lpFormat) as [[|]|] eqn:Hp; try done.
  destruct data; [|done].
  rewrite lookup_insert_ne; [done|]. intros ->. congruence.
Qed.

(** An allocator that does not hand out a live block leaves the session
    where it is. *)
Lemma returns_GlobalAlloc fp h l s size (P : Z -> State -> Prop) :
  session fp h l s ->
  env_GlobalAlloc E l size <> fp ->
  (forall s', let p := env_GlobalAlloc E l size in
     session fp h (l ++ [CGlobalAlloc size p]) s' -> P p s') ->
  returns (GlobalAlloc E size) s P.
Proof.
  intros (Hn & Hh & Hl) Hp HP. unfold returns, GlobalAlloc. rewrite Hl.
  apply HP. split; [done|]. split; [|cbn; congruence]. cbn.
  case_decide; [done|]. by rewrite lookup_insert_ne.
Qed.

Lemma returns_AVIFileOpen fp h l s file (P : Z * Z -> State -> Prop) :
  session fp h l s ->
  (forall hr pf s', env_AVIFileOpen E l file = (hr, pf) ->
     session fp h (l ++ [CAVIFileOpen file hr pf]) s' -> P (hr, pf) s') ->
  returns (AVIFileOpen E file) s P.
Proof.
  intros Hs HP. unfold returns, AVIFileOpen.
  pose proof Hs as (_ & _ & Hl). rewrite Hl.
  destruct (env_AVIFileOpen E l file) as [hr pf] eqn:He.
  apply HP; [done|]. by apply session_emit.
Qed.

Lemma returns_AVIFileInfo fp h l s pf (P : Z * AVIFILEINFO -> State -> Prop) :
  session fp h l s ->
  (forall hr fi s', session fp h (l ++ [CAVIFileInfo pf hr fi]) s' -> P (hr, fi) s') ->
  returns (AVIFileInfo E pf) s P.
Proof.
  intros Hs HP. unfold returns, AVIFileInfo.
  pose proof Hs as (_ & _ & Hl). rewrite Hl.
  destruct (env_AVIFileInfo E l pf) as [hr fi].
  apply HP. by apply session_emit.
Qed.

End Rules.

(** ** The stream loop of [func_open] *)

Lemma streamtype_distinct : streamtypeVIDEO <> streamtypeAUDIO.
Proof. vm_compute. discriminate. Qed.

Lemma live_step_keep p b c :
  (forall q, c <> CGlobalFree q) -> b = true -> live_step p b c = true.
Proof.
  intros Hc ->. destruct c; cbn; try done.
  - by case_decide.
  - by destruct (Hc p0).
Qed.


Lemma streams_of_info fcc pas asi rest :
  streams_of fcc (CAVIStreamInfo pas asi :: rest) =
  if decide (fccType asi = fcc) then (pas, asi) :: streams_of fcc rest
  else streams_of fcc rest.
Proof. unfold streams_of. cbn. by case_decide. Qed.

Lemma streams_of_other fcc c rest :
  is_info c = false -> streams_of fcc (c :: rest) = streams_of fcc rest.
Proof. by destruct c. Qed.

Ltac streams :=
  cbn [app];
  repeat first
    [ rewrite streams_of_other by reflexivity
    | rewrite streams_of_info
    | rewrite decide_True by congruence
    | rewrite decide_False by (pose proof streamtype_distinct; congruence) ];
  try reflexivity.

Lemma count_app f l1 l2 : count f (l1 ++ l2) = (count f l1 + count f l2)%nat.
Proof. induction l1 as [|c l1 IH]; cbn; [done|]. rewrite IH. lia. Qed.

Lemma release_bound_app l1 l2 :
  release_bound l1 -> release_bound l2 -> release_bound (l1 ++ l2).
Proof. unfold release_bound. rewrite !count_app. lia. Qed.

Ltac bound :=
  unfold release_bound; cbn [app count is_release not_video_stream failed_alloc];
  repeat case_bool_decide; first [lia | congruence | tauto].

Lemma open_inv_skip E evs tail h :
  release_bound tail ->
  streams_of streamtypeVIDEO tail = [] -> streams_of streamtypeAUDIO tail = [] ->
  open_inv E evs h -> open_inv E (evs ++ tail) h.
Proof.
  intros Hb Hv Ha [].
  split; rewrite ?streams_of_app, ?Hv, ?Ha, ?app_nil_r; auto.
  by apply release_bound_app.
Qed.

Lemma open_inv_video E evs tail h h' pas asi :
  open_inv E evs h -> release_bound tail ->
  streams_of streamtypeVIDEO tail = [(pas, asi)] ->
  streams_of streamtypeAUDIO tail = [] ->
  got_stream E pas ->
  pvideo h' = pas -> videoinfo h' = asi ->
  paudio h' = paudio h -> audioinfo h' = audioinfo h ->
  audioformat h' = audioformat h ->
  (flag h' = Z.lor (flag h) FLAG_VIDEO /\ videoformat h' <> NULL \/
   flag h' = flag h /\ videoformat h' = NULL) ->
  open_inv E (evs ++ tail) h'.
Proof.
  intros [] Hb Hv Ha Hg Hpv Hvi Hpa Hai Haf Hfl.
  assert (Hau : HasAudio h' <-> HasAudio h).
  { unfold HasAudio. destruct Hfl as [[-> _]|[-> _]]; [|done].
    by rewrite land_lor_video_audio. }
  split; rewrite ?streams_of_app, ?Hv, ?Ha, ?app_nil_r.
  - intros pas' asi'. rewrite last_snoc. intros [= <- <-]. done.
  - intros pas' asi' Hlast. rewrite Hpa, Hai. auto.
  - intros _. by rewrite Hpv.
  - intros H%Hau. rewrite Hpa. auto.
  - intros H. by apply app_eq_nil in H as [_ [=]].
  - intros H. rewrite Hpa, Haf, Hau. auto.
  - rewrite length_app. cbn. intros Hlen Hhv.
    destruct Hfl as [[_ Hnn]|[Hf Hnull]]; [done|].
    destruct (streams_of streamtypeVIDEO evs) eqn:Hevs; [|cbn in Hlen; lia].
    destruct inv_video_absent0 as [Hno _]; [done|].
    exfalso. apply Hno. unfold HasVideo in *. by rewrite <- Hf.
  - by apply release_bound_app.
Qed.

Lemma open_inv_audio E evs tail h h' pas asi :
  open_inv E evs h -> release_bound tail ->
  streams_of streamtypeVIDEO tail = [] ->
  streams_of streamtypeAUDIO tail = [(pas, asi)] ->
  got_stream E pas ->
  paudio h' = pas -> audioinfo h' = asi ->
  pvideo h' = pvideo h -> videoinfo h' = videoinfo h ->
  videoformat h' = videoformat h ->
  (flag h' = Z.lor (flag h) FLAG_AUDIO \/ flag h' = flag h) ->
  open_inv E (evs ++ tail) h'.
Proof.
  intros [] Hb Hv Ha Hg Hpa Hai Hpv Hvi Hvf Hfl.
  assert (Hvd : HasVideo h' <-> HasVideo h).
  { unfold HasVideo. destruct Hfl as [->| ->]; [|done].
    by rewrite land_lor_audio_video. }
  split; rewrite ?streams_of_app, ?Hv, ?Ha, ?app_nil_r.
  - intros pas' asi' Hlast. rewrite Hpv, Hvi. auto.
  - intros pas' asi'. rewrite last_snoc. intros [= <- <-]. done.
  - intros H%Hvd. rewrite Hpv. auto.
  - intros _. by rewrite Hpa.
  - intros H. rewrite Hpv, Hvf, Hvd. auto.
  - intros H. by apply app_eq_nil in H as [_ [=]].
  - rewrite Hvd, Hvf. auto.
  - by apply release_bound_app.
Qed.


Section Open.
Variable E : Env.
Variable fp : Z.
Hypothesis Hfresh : keeps_live E fp.
Variable l0 : list Call.

Ltac snoc_live H :=
  rewrite live_snoc; apply live_step_keep; [intros ?; discriminate | exact H].
Ltac live_next Hs H H' :=
  match type of Hs with
  | session _ _ ?l _ => assert (H' : live l fp = true) by snoc_live H
  end.

Ltac finish Hs Hl :=
  eexists _, _;
  split; [split; [exact Hs | split; [exact Hl|]] | split; reflexivity].

Lemma open_stream_inv i h evs s :
  opened E fp l0 h evs s ->
  returns (open_stream E fp i) s (fun _ s' =>
    exists h' evs', opened E fp l0 h' evs' s' /\ fileinfo h' = fileinfo h /\ pfile h' = pfile h).
Proof.
  intros (Hs & Hl & Hinv). unfold open_stream.
  apply returns_bind. eapply returns_load; [eassumption|].
  apply returns_bind. eapply returns_AVIFileGetStream; [eassumption|].
  intros hr pas s1 Hget Hs1. live_next Hs1 Hl Hl1.
  case_decide as Hhr.
  2:{ apply returns_ret. rewrite <- app_assoc in Hs1, Hl1.
      finish Hs1 Hl1.
      apply open_inv_skip; [bound | streams.. | done]. }
  assert (Hgot : got_stream E pas) by (subst hr; repeat eexists; exact Hget).
  apply returns_bind. eapply returns_AVIStreamInfo; [eassumption|].
  intros s2 Hs2. set (asi := env_AVIStreamInfo E _ pas) in *.
  live_next Hs2 Hl1 Hl2.
  case_decide as Hv; [|case_decide as Ha].
  - apply returns_bind. eapply returns_store; [eassumption|]. intros s3 Hs3.
    apply returns_bind. eapply returns_store; [eassumption|]. intros s4 Hs4.
    apply returns_bind. eapply returns_load; [eassumption|].
    apply returns_bind. eapply returns_AVIStreamFormatSize; [eassumption|].
    intros size s5 Hs5. live_next Hs5 Hl2 Hl5.
    apply returns_bind. eapply returns_store; [eassumption|]. intros s6 Hs6.
    apply returns_bind. eapply returns_load; [eassumption|].
    apply returns_bind.
    eapply returns_GlobalAlloc; [eassumption | by apply Hfresh |].
    intros s7 p Hs7. live_next Hs7 Hl5 Hl7.
    apply returns_bind. eapply returns_store; [eassumption|]. intros s8 Hs8.
    apply returns_bind. eapply returns_load; [eassumption|].
    case_decide as Hp.
    + apply returns_bind. eapply returns_AVIStreamReadFormat; [eassumption|].
      intros cb' s9 Hs9. live_next Hs9 Hl7 Hl9.
      apply returns_bind. eapply returns_store; [eassumption|]. intros s10 Hs10.
      eapply returns_store; [eassumption|]. intros s11 Hs11.
      rewrite <- !app_assoc in Hs11, Hl9.
      finish Hs11 Hl9.
      eapply open_inv_video; [exact Hinv | bound | streams | streams | exact Hgot
                             | reflexivity.. | left; split; [reflexivity | exact Hp]].
    + eapply returns_AVIStreamRelease; [eassumption|]. intros s9 Hs9.
      live_next Hs9 Hl7 Hl9. rewrite <- !app_assoc in Hs9, Hl9.
      finish Hs9 Hl9.
      assert (Hnull : p = NULL).
      { cbn in Hp. destruct (decide (p = NULL)); [done | by destruct Hp]. }
      eapply open_inv_video; [exact Hinv | bound | streams | streams | exact Hgot
                             | reflexivity.. | right; split; [reflexivity|exact Hnull]].
  - apply returns_bind. eapply returns_store; [eassumption|]. intros s3 Hs3.
    apply returns_bind. eapply returns_store; [eassumption|]. intros s4 Hs4.
    apply returns_bind. eapply returns_load; [eassumption|].
    apply returns_bind. eapply returns_AVIStreamFormatSize; [eassumption|].
    intros size s5 Hs5. live_next Hs5 Hl2 Hl5.
    apply returns_bind. eapply returns_store; [eassumption|]. intros s6 Hs6.
    apply returns_bind. eapply returns_load; [eassumption|].
    apply returns_bind.
    eapply returns_GlobalAlloc; [eassumption | by apply Hfresh |].
    intros s7 p Hs7. live_next Hs7 Hl5 Hl7.
    apply returns_bind. eapply returns_store; [eassumption|]. intros s8 Hs8.
    apply returns_bind. eapply returns_load; [eassumption|].
    case_decide as Hp.
    + apply returns_bind. eapply returns_AVIStreamReadFormat; [eassumption|].
      intros cb' s9 Hs9. live_next Hs9 Hl7 Hl9.
      apply returns_bind. eapply returns_store; [eassumption|]. intros s10 Hs10.
      eapply returns_store; [eassumption|]. intros s11 Hs11.
      rewrite <- !app_assoc in Hs11, Hl9.
      finish Hs11 Hl9.
      eapply open_inv_audio; [exact Hinv | bound | streams | streams | exact Hgot
                             | reflexivity.. | left; reflexivity].
    + eapply returns_AVIStreamRelease; [eassumption|]. intros s9 Hs9.
      live_next Hs9 Hl7 Hl9. rewrite <- !app_assoc in Hs9, Hl9.
      finish Hs9 Hl9.
      eapply open_inv_audio; [exact Hinv | bound | streams | streams | exact Hgot
                             | reflexivity.. | right; reflexivity].
  - eapply returns_AVIStreamRelease; [eassumption|]. intros s3 Hs3.
    live_next Hs3 Hl2 Hl3. rewrite <- !app_assoc in Hs3, Hl3.
    finish Hs3 Hl3.
    apply open_inv_skip; [bound | streams.. | done].
Qed.

Lemma stream_loop_inv n : forall i h evs s,
  opened E fp l0 h evs s ->
  returns (stream_loop E fp i n) s (fun _ s' =>
    exists h' evs', opened E fp l0 h' evs' s' /\ fileinfo h' = fileinfo h /\ pfile h' = pfile h).
Proof.
  induction n as [|n IH]; intros i h evs s Ho; cbn [stream_loop].
  - apply returns_ret. eauto.
  - apply returns_bind. eapply returns_weaken; [|eapply open_stream_inv; eassumption].
    intros [] s1 (h1 & evs1 & Ho1 & Hfi & Hpf). cbn beta.
    eapply returns_weaken; [|eapply IH; eassumption].
    intros [] s2 (h2 & evs2 & Ho2 & Hfi2 & Hpf2).
    exists h2, evs2. split; [done|]. split; congruence.
Qed.
End Open.

Lemma open_inv_init E evs h :
  release_bound evs ->
  flag h = 0 -> pvideo h = NULL -> paudio h = NULL ->
  videoformat h = NULL -> audioformat h = NULL ->
  streams_of streamtypeVIDEO evs = [] -> streams_of streamtypeAUDIO evs = [] ->
  open_inv E evs h.
Proof.
  intros Hb Hf Hpv Hpa Hvf Haf Hv Ha.
  assert (Hnv : ~ HasVideo h) by (unfold HasVideo; rewrite Hf; auto).
  assert (Hna : ~ HasAudio h) by (unfold HasAudio; rewrite Hf; auto).
  split; rewrite ?Hv, ?Ha; try done.
Qed.

Section OpenWhole.
Variable E : Env.

(** When the session record is allocated and the file opens, [func_open]
    returns the record's address; the record is live and satisfies the loop
    invariant over the calls made. *)
Lemma func_open_opened file s :
  let size := sizeof_FILE_HANDLE E in
  let fp := env_GlobalAlloc E (log s) size in
  fp <> NULL -> keeps_live E fp ->
  (env_AVIFileOpen E (log s ++ [CGlobalAlloc size fp]) file).1 = S_OK ->
  returns (func_open E file) s (fun r s' =>
    r = fp /\ exists h evs, session fp h (log s ++ evs) s' /\ open_inv E evs h).
Proof.
  intros size fp Hfp Hfresh Hopen. unfold func_open.
  apply returns_bind. unfold returns at 1, GlobalAlloc. fold size. fold fp.
  rewrite decide_False by done.
  apply returns_bind. unfold returns at 1, ZeroMemory. cbn [heap log].
  set (s1 := {| heap := _; log := _ |}).
  assert (Hs1 : session fp zero_FILE_HANDLE (log s ++ [CGlobalAlloc size fp]) s1).
  { split; [done|]. split; [apply lookup_insert_eq | done]. }
  assert (Hl1 : live (log s ++ [CGlobalAlloc size fp]) fp = true).
  { rewrite live_snoc. cbn. by rewrite decide_True. }
  apply returns_bind. eapply returns_AVIFileOpen; [eassumption|].
  intros hr pf s2 Hopen2 Hs2. rewrite Hopen2 in Hopen. cbn in Hopen. subst hr.
  apply returns_bind. eapply returns_store; [eassumption|]. intros s3 Hs3.
  rewrite decide_False by (intros H; by apply H).
  apply returns_bind. eapply returns_load; [eassumption|].
  apply returns_bind. eapply returns_AVIFileInfo; [eassumption|]. intros hr fi s4 Hs4.
  apply returns_bind. eapply returns_store; [eassumption|]. intros s5 Hs5.
  rewrite <- !app_assoc in Hs5. cbn [app] in Hs5.
  assert (Ho : opened E fp (log s) (set_fileinfo fi (set_pfile pf zero_FILE_HANDLE))
                 [CGlobalAlloc size fp; CAVIFileOpen file S_OK pf;
                  CAVIFileInfo (pfile (set_pfile pf zero_FILE_HANDLE)) hr fi] s5).
  { split; [exact Hs5|]. split.
    - change (log s ++ [?a; ?b; ?c]) with (log s ++ [a] ++ [b] ++ [c]).
      rewrite !app_assoc.
      do 2 (rewrite live_snoc; apply live_step_keep; [intros ?; discriminate|]).
      exact Hl1.
    - apply open_inv_init; [bound | done..]. }
  apply returns_bind. case_decide.
  - apply returns_bind. eapply returns_load; [eassumption|].
    eapply returns_weaken; [|eapply stream_loop_inv; eassumption].
    intros [] s6 (h6 & evs6 & (Hs6 & _ & Hinv6) & _). cbn beta.
    apply returns_ret. split; [done|]. eauto.
  - apply returns_ret. apply returns_ret. split; [done|].
    destruct Ho as (? & _ & ?). eauto.
Qed.

End OpenWhole.

(** ** Running the operations on a live session *)

Lemma bind_Ok {A B} (m : M A) (k : A -> M B) s a s1 :
  m s = Ok a s1 -> bind m k s = k a s1.
Proof. unfold bind. by intros ->. Qed.

Lemma load_Ok fp h s :
  fp <> NULL -> heap s !! fp = Some (BSession h) -> load fp s = Ok h s.
Proof. intros Hn Hh. unfold load. by rewrite decide_False, Hh. Qed.

Lemma func_close_run ih h s :
  ih <> NULL -> heap s !! ih = Some (BSession h) ->
  (HasAudio h -> audioformat h <> ih) -> (HasVideo h -> videoformat h <> ih) ->
  exists s', func_close ih s = Ok true s' /\
    heap s' !! ih = None /\
    log s' = log s ++ close_audio h ++ close_video h
                   ++ [CAVIFileRelease (pfile h); CGlobalFree ih].
Proof.
  intros Hn Hh Ha Hv. unfold func_close, close_audio, close_video.
  rewrite decide_True by done.
  change (decide (HasAudio h)) with (decide (Z.land (flag h) FLAG_AUDIO <> 0)).
  change (decide (HasVideo h)) with (decide (Z.land (flag h) FLAG_VIDEO <> 0)).
  unfold bind at 1 2. rewrite (load_Ok ih h s) by done.
  destruct (decide (Z.land (flag h) FLAG_AUDIO <> 0)) as [Hau|Hau];
    destruct (decide (Z.land (flag h) FLAG_VIDEO <> 0)) as [Hvi|Hvi].
  all: unfold bind, AVIStreamRelease, GlobalFree, AVIFileRelease, ret, emit;
    cbn [heap log];
    repeat (first [ rewrite load_Ok with (h := h)
                  | rewrite decide_True by done
                  | rewrite decide_False by done ];
            cbn [heap log];
            [ | try done;
                rewrite ?lookup_delete_ne by (first [by apply Ha | by apply Hv]);
                done .. ]).
  all: eexists; split; [reflexivity|]; cbn [heap log];
    split; [apply lookup_delete_eq | by rewrite <- ?app_assoc].
Qed.

(** The heap [func_close] leaves. *)
Lemma func_close_heap ih h s :
  ih <> NULL -> heap s !! ih = Some (BSession h) ->
  (HasAudio h -> audioformat h <> ih) -> (HasVideo h -> videoformat h <> ih) ->
  exists s', func_close ih s = Ok true s' /\
    heap s' =
      delete ih
        ((if decide (HasVideo h) then delete (videoformat h) else id)
           ((if decide (HasAudio h) then delete (audioformat h) else id) (heap s))).
Proof.
  intros Hn Hh Ha Hv. unfold func_close.
  rewrite decide_True by done.
  change (decide (HasAudio h)) with (decide (Z.land (flag h) FLAG_AUDIO <> 0)).
  change (decide (HasVideo h)) with (decide (Z.land (flag h) FLAG_VIDEO <> 0)).
  unfold bind at 1 2. rewrite (load_Ok ih h s) by done.
  destruct (decide (Z.land (flag h) FLAG_AUDIO <> 0)) as [Hau|Hau];
    destruct (decide (Z.land (flag h) FLAG_VIDEO <> 0)) as [Hvi|Hvi].
  all: unfold bind, AVIStreamRelease, GlobalFree, AVIFileRelease, ret, emit;
    cbn [heap log];
    repeat (first [ rewrite load_Ok with (h := h)
                  | rewrite decide_True by done
                  | rewrite decide_False by done ];
            cbn [heap log];
            [ | try done;
                rewrite ?lookup_delete_ne by (first [by apply Ha | by apply Hv]);
                done .. ]).
  all: eexists; split; reflexivity.
Qed.

Lemma func_close_null s : func_close NULL s = Ok true s.
Proof. reflexivity. Qed.

(** C7.  [func_close] on a live session releases, in this order: the audio
    stream handle and then the audio format buffer (only when the audio flag
    is set), the video stream handle and then the video format buffer (only
    when the video flag is set), the file handle, and last the session record
    itself.  These are all the calls it makes, and it returns [true].  The
    heap it leaves is the heap before without the record and without the
    format buffer of each flagged side: these blocks are freed, and no
    other. *)
Theorem func_close_release_order (ih : Z) (h : FILE_HANDLE) (s : State) :
  ih <> NULL -> heap s !! ih = Some (BSession h) ->
  (HasAudio h -> audioformat h <> ih) -> (HasVideo h -> videoformat h <> ih) ->
  exists s', func_close ih s = Ok true s' /\
    log s' = log s
      ++ (if decide (HasAudio h)
          then [CAVIStreamRelease (paudio h); CGlobalFree (audioformat h)] else [])
      ++ (if decide (HasVideo h)
          then [CAVIStreamRelease (pvideo h); CGlobalFree (videoformat h)] else [])
      ++ [CAVIFileRelease (pfile h); CGlobalFree ih] /\
    heap s' =
      delete ih
        ((if decide (HasVideo h) then delete (videoformat h) else id)
           ((if decide (HasAudio h) then delete (audioformat h) else id) (heap s))) /\
    heap s' !! ih = None /\
    (HasAudio h -> heap s' !! audioformat h = None) /\
    (HasVideo h -> heap s' !! videoformat h = None).
Proof.
  intros Hn Hh Ha Hv.
  destruct (func_close_run ih h s Hn Hh Ha Hv) as (s' & Hrun & Hgone & Hlog).
  destruct (func_close_heap ih h s Hn Hh Ha Hv) as (s2 & Hrun2 & Hheap).
  assert (s2 = s') as -> by congruence.
  exists s'. split; [exact Hrun|]. split; [exact Hlog|].
  split; [exact Hheap|]. split; [exact Hgone|].
  rewrite Hheap. split.
  - intros Hau. rewrite lookup_delete_ne by (by apply not_eq_sym, Ha).
    rewrite (decide_True (P := HasAudio h)) by done.
    destruct (decide (HasVideo h)) as [Hvi|Hvi]; cbn [id].
    + destruct (decide (videoformat h = audioformat h)) as [->|Hne].
      * apply lookup_delete_eq.
      * rewrite lookup_delete_ne by done. apply lookup_delete_eq.
    + apply lookup_delete_eq.
  - intros Hvi. rewrite lookup_delete_ne by (by apply not_eq_sym, Hv).
    rewrite (decide_True (P := HasVideo h)) by done.
    apply lookup_delete_eq.
Qed.

(** C8.  [func_close] never returns [false], and it returns [true] for every
    handle the host may pass, the null handle included; for the null handle
    it makes no call and leaves the state as it was. *)
Theorem func_close_always_true (ih : Z) (s : State) :
  (forall b s', func_close ih s = Ok b s' -> b = true) /\
  (closable s ih ->
   exists s', func_close ih s = Ok true s' /\ (ih = NULL -> s' = s)).
Proof.
  split.
  - intros b s' H. unfold func_close in H. unfold bind at 1 in H.
    match type of H with
    | match ?m with _ => _ end = _ => destruct m as [[] s1|]; [|done]
    end.
    by injection H as <- _.
  - intros [-> | (h & Hh & Ha & Hv)].
    + exists s. split; [apply func_close_null | done].
    + destruct (decide (ih = NULL)) as [-> | Hn].
      * exists s. split; [apply func_close_null | done].
      * destruct (func_close_run ih h s Hn Hh Ha Hv) as (s' & Hrun & _).
        exists s'. split; [exact Hrun | done].
Qed.

Section Reads.
Variable E : Env.

Lemma func_info_get_run ih h s iip :
  ih <> NULL -> heap s !! ih = Some (BSession h) ->
  exists r, func_info_get ih iip s = Ok (true, r) s /\
    (ii_flag r = Z.lor (if decide (HasVideo h) then INPUT_INFO_FLAG_VIDEO else 0)
                       (if decide (HasAudio h) then INPUT_INFO_FLAG_AUDIO else 0)) /\
    (HasVideo h ->
       ii_rate r = wrap32 (dwRate (videoinfo h)) /\
       ii_scale r = wrap32 (dwScale (videoinfo h)) /\
       ii_n r = wrap32 (dwLength (videoinfo h)) /\
       ii_format r = videoformat h /\ ii_format_size r = videoformatsize h) /\
    (HasAudio h ->
       ii_audio_n r = wrap32 (dwLength (audioinfo h)) /\
       ii_audio_format r = audioformat h /\
       ii_audio_format_size r = audioformatsize h).
Proof.
  intros Hn Hh. unfold func_info_get.
  rewrite (bind_Ok _ _ _ _ _ (load_Ok ih h s Hn Hh)).
  rewrite (bind_Ok _ _ _ _ _ (load_Ok ih h s Hn Hh)).
  change (decide (HasAudio h)) with (decide (Z.land (flag h) FLAG_AUDIO <> 0)).
  change (decide (HasVideo h)) with (decide (Z.land (flag h) FLAG_VIDEO <> 0)).
  unfold HasVideo, HasAudio.
  destruct (decide (Z.land (flag h) FLAG_AUDIO <> 0)) as [Hau|Hau];
    destruct (decide (Z.land (flag h) FLAG_VIDEO <> 0)) as [Hvi|Hvi];
    eexists; (split; [reflexivity|]); cbn; tauto.
Qed.

Lemma func_read_video_run ih h s frame buf :
  ih <> NULL -> heap s !! ih = Some (BSession h) ->
  forall hr1 videosize n1,
  env_AVIStreamRead E (log s) (pvideo h) frame 1 NULL 0 = (hr1, videosize, n1) ->
  let q := CAVIStreamRead (pvideo h) frame 1 NULL 0 true false hr1 videosize n1 in
  (hr1 <> S_OK -> func_read_video E ih frame buf s = Ok 0 (emit q s)) /\
  (hr1 = S_OK -> forall hr2 size n2,
     env_AVIStreamRead E (log s ++ [q]) (pvideo h) frame 1 buf videosize = (hr2, size, n2) ->
     let r := CAVIStreamRead (pvideo h) frame 1 buf videosize true false hr2 size n2 in
     func_read_video E ih frame buf s =
       Ok (if decide (hr2 = S_OK) then size else 0) (emit r (emit q s))).
Proof.
  intros Hn Hh hr1 videosize n1 H1 q.
  change (env_AVIStreamRead E (log s) (pvideo h) frame 1 NULL NULL
          = (hr1, videosize, n1)) in H1.
  assert (Hq : func_read_video E ih frame buf s =
               if decide (hr1 <> S_OK) then Ok 0 (emit q s)
               else (let* h := load ih in
                     let* (hr, size, _) :=
                       AVIStreamRead E (pvideo h) frame 1 buf videosize true false in
                     if decide (hr <> S_OK) then ret 0 else ret size) (emit q s)).
  { unfold func_read_video.
    rewrite (bind_Ok _ _ _ _ _ (load_Ok ih h s Hn Hh)).
    unfold bind at 1. unfold AVIStreamRead at 1. rewrite H1.
    by destruct (decide (hr1 <> S_OK)). }
  rewrite Hq. split.
  - intros Hhr. by rewrite decide_True.
  - intros -> hr2 size n2 H2 r. rewrite decide_False by (intros H; by apply H).
    assert (Hh' : heap (emit q s) !! ih = Some (BSession h)) by exact Hh.
    rewrite (bind_Ok _ _ _ _ _ (load_Ok ih h _ Hn Hh')).
    unfold bind, AVIStreamRead. cbn [log emit]. rewrite H2.
    destruct (decide (hr2 = S_OK)) as [->|Hne].
    + by rewrite decide_False by (intros H; by apply H).
    + by rewrite decide_True.
Qed.

Lemma func_read_audio_run ih h s start len buf bytes w :
  ih <> NULL -> heap s !! ih = Some (BSession h) ->
  audioformat h <> NULL -> heap s !! audioformat h = Some (BBuffer (Some bytes)) ->
  read_WORD bytes nBlockAlign_offset = Some w ->
  forall hr nbytes nsamples,
  env_AVIStreamRead E (log s) (paudio h) start len buf (wrap32 (w * len))
    = (hr, nbytes, nsamples) ->
  func_read_audio E ih start len buf s =
    Ok (if decide (hr = S_OK) then nsamples else 0)
       (emit (CAVIStreamRead (paudio h) start len buf (wrap32 (w * len))
                false true hr nbytes nsamples) s).
Proof.
  intros Hn Hh Hnn Hb Hw hr nbytes nsamples Hr. unfold func_read_audio.
  rewrite (bind_Ok _ _ _ _ _ (load_Ok ih h s Hn Hh)).
  unfold bind at 1. unfold load_nBlockAlign. rewrite decide_False by done.
  rewrite Hb, Hw.
  rewrite (bind_Ok _ _ _ _ _ (load_Ok ih h s Hn Hh)).
  unfold bind, AVIStreamRead. rewrite Hr.
  destruct (decide (hr = S_OK)) as [->|Hne].
  - by rewrite decide_False by (intros H; by apply H).
  - by rewrite decide_True.
Qed.

Lemma func_read_audio_null ih h s start len buf :
  ih <> NULL -> heap s !! ih = Some (BSession h) ->
  (func_read_audio E ih start len buf s = Crash NullDereference <->
   audioformat h = NULL).
Proof.
  intros Hn Hh. unfold func_read_audio.
  rewrite (bind_Ok _ _ _ _ _ (load_Ok ih h s Hn Hh)).
  unfold bind at 1. unfold load_nBlockAlign.
  destruct (decide (audioformat h = NULL)) as [Hnull|Hnn]; [done|].
  split; [|done]. intros Hc. exfalso.
  destruct (heap s !! audioformat h) as [[|[bytes|]]|]; try discriminate.
  destruct (read_WORD bytes nBlockAlign_offset); try discriminate.
  rewrite (bind_Ok _ _ _ _ _ (load_Ok ih h s Hn Hh)) in Hc.
  unfold bind, AVIStreamRead in Hc.
  destruct (env_AVIStreamRead _ _ _ _ _ _ _) as [[hr ?] ?].
  by destruct (decide (hr <> S_OK)).
Qed.

Lemma func_read_audio_heap ih s start len buf r s' :
  func_read_audio E ih start len buf s = Ok r s' -> heap s' = heap s.
Proof.
  unfold func_read_audio, bind, load, load_nBlockAlign, AVIStreamRead, ret.
  intros H.
  destruct (decide (ih = NULL)); [done|].
  destruct (heap s !! ih) as [[h|]|] eqn:Hh; try done.
  destruct (decide (audioformat h = NULL)); [done|].
  destruct (heap s !! audioformat h) as [[|[bytes|]]|]; try done.
  destruct (read_WORD bytes nBlockAlign_offset); try done.
  rewrite Hh in H.
  destruct (env_AVIStreamRead _ _ _ _ _ _ _) as [[hr ?] ?].
  by destruct (decide (hr <> S_OK)); injection H as <- <-.
Qed.

Lemma func_read_video_heap ih s frame buf r s' :
  func_read_video E ih frame buf s = Ok r s' -> heap s' = heap s.
Proof.
  unfold func_read_video, bind, load, AVIStreamRead, ret. intros H.
  destruct (decide (ih = NULL)); [done|].
  destruct (heap s !! ih) as [[h|]|] eqn:Hh; try done.
  destruct (env_AVIStreamRead _ _ _ _ _ _ _) as [[hr ?] ?].
  destruct (decide (hr <> S_OK)); [by injection H as <- <-|].
  cbn [heap emit] in H. rewrite Hh in H.
  destruct (env_AVIStreamRead _ _ _ _ _ _ _) as [[hr2 ?] ?].
  by destruct (decide (hr2 <> S_OK)); injection H as <- <-.
Qed.

Lemma func_info_get_state ih iip s r s' :
  func_info_get ih iip s = Ok r s' -> s' = s.
Proof.
  unfold func_info_get, bind, load, ret. intros H.
  destruct (decide (ih = NULL)); [done|].
  destruct (heap s !! ih) as [[h|]|] eqn:Hh; try done.
  cbn beta iota in H. rewrite Hh in H.
  by injection H as <- <-.
Qed.

End Reads.

(** ** The concrete service is well behaved *)

Lemma live_has_alloc hist p :
  live hist p = true -> (0 < length (filter (fun c => is_alloc c = true) hist))%nat.
Proof.
  induction hist as [|c hist IH] using rev_ind; [discriminate|].
  rewrite live_snoc, filter_app, length_app. intros H.
  destruct c; cbn in *; repeat case_decide; try done; cbn;
    try specialize (IH H); lia.
Qed.

Lemma fixture_keeps_live fx : keeps_live (fixture_env fx) 65536.
Proof.
  intros hist size Hlive%live_has_alloc. cbn.
  case_decide; [discriminate|]. lia.
Qed.

Lemma fixture_streams_nonnull fx pas : got_stream (fixture_env fx) pas -> pas <> NULL.
Proof.
  intros (hist & pf & fcc & i & H). cbn in H.
  case_decide; [|discriminate]. injection H as <-. unfold NULL. lia.
Qed.

(** ** Non-mutation over any sequence of reads *)

Lemma run_ops_heap E ih ops : forall s s',
  run_ops E ih ops s = Ok tt s' -> heap s' = heap s.
Proof.
  induction ops as [|op ops IH]; intros s s' H; cbn in H.
  - by injection H as <-.
  - unfold bind at 1 in H. destruct (run_op E ih op s) as [[] s1|] eqn:Hop; [|done].
    rewrite (IH _ _ H). clear H IH.
    destruct op; cbn in Hop; unfold bind, ret in Hop.
    + destruct (func_info_get ih iip s) as [r s2|] eqn:Hr; [|done].
      injection Hop as <-. by rewrite (func_info_get_state _ _ _ _ _ Hr).
    + destruct (func_read_video E ih frame buf s) as [r s2|] eqn:Hr; [|done].
      injection Hop as <-. by apply func_read_video_heap in Hr.
    + destruct (func_read_audio E ih start len buf s) as [r s2|] eqn:Hr; [|done].
      injection Hop as <-. by apply func_read_audio_heap in Hr.
Qed.

Section Claims.
Variable E : Env.

(** C4.  [func_read_video] follows a two-phase protocol.  It first asks the
    service for the byte size of the frame, with a null buffer of capacity
    0 and one sample; when that call does not answer [S_OK] (as the service
    does for a frame index out of range) it returns 0 after that one call.
    Otherwise it reads the frame into the caller's buffer with the queried
    size as capacity; it returns 0 when that read fails and the byte count
    the service reports otherwise. *)
Theorem func_read_video_two_phase (ih : Z) (h : FILE_HANDLE) (s : State)
    (frame buf : Z) :
  ih <> NULL -> heap s !! ih = Some (BSession h) ->
  exists hr1 videosize n1,
    env_AVIStreamRead E (log s) (pvideo h) frame 1 NULL 0 = (hr1, videosize, n1) /\
    let q := CAVIStreamRead (pvideo h) frame 1 NULL 0 true false hr1 videosize n1 in
    (hr1 <> S_OK -> func_read_video E ih frame buf s = Ok 0 (emit q s)) /\
    (hr1 = S_OK ->
     exists hr2 size n2,
       env_AVIStreamRead E (log s ++ [q]) (pvideo h) frame 1 buf videosize
         = (hr2, size, n2) /\
       let r := CAVIStreamRead (pvideo h) frame 1 buf videosize true false
                  hr2 size n2 in
       func_read_video E ih frame buf s =
         Ok (if decide (hr2 = S_OK) then size else 0) (emit r (emit q s))).
Proof.
  intros Hn Hh.
  destruct (env_AVIStreamRead E (log s) (pvideo h) frame 1 NULL 0)
    as [[hr1 videosize] n1] eqn:H1.
  exists hr1, videosize, n1. split; [done|]. intros q.
  destruct (func_read_video_run E ih h s frame buf Hn Hh _ _ _ H1) as [Hf Hok].
  split; [exact Hf|]. intros Hhr.
  destruct (env_AVIStreamRead E (log s ++ [q]) (pvideo h) frame 1 buf videosize)
    as [[hr2 size] n2] eqn:H2.
  exists hr2, size, n2. split; [done|]. exact (Hok Hhr _ _ _ H2).
Qed.

(** C5, as amended.  [func_read_audio] passes the service the capacity
    [nBlockAlign * length], a 32-bit [int] product of the block alignment
    read from the cached audio format buffer (equal to the exact product
    when that fits an [int]); it passes no [plBytes] pointer, and returns the
    number of samples the service reports through [plSamples], or 0 when the
    call fails. *)
Theorem func_read_audio_returns_samples (ih : Z) (h : FILE_HANDLE) (s : State)
    (start len buf : Z) (bytes : list Z) (w : Z) :
  ih <> NULL -> heap s !! ih = Some (BSession h) ->
  audioformat h <> NULL ->
  heap s !! audioformat h = Some (BBuffer (Some bytes)) ->
  read_WORD bytes nBlockAlign_offset = Some w ->
  exists hr nbytes nsamples,
    let cap := wrap32 (w * len) in
    env_AVIStreamRead E (log s) (paudio h) start len buf cap
      = (hr, nbytes, nsamples) /\
    func_read_audio E ih start len buf s =
      Ok (if decide (hr = S_OK) then nsamples else 0)
         (emit (CAVIStreamRead (paudio h) start len buf cap false true
                  hr nbytes nsamples) s) /\
    (- 2 ^ 31 <= w * len < 2 ^ 31 -> cap = w * len).
Proof.
  intros Hn Hh Hnn Hb Hw.
  destruct (env_AVIStreamRead E (log s) (paudio h) start len buf (wrap32 (w * len)))
    as [[hr nbytes] nsamples] eqn:Hr.
  exists hr, nbytes, nsamples. cbn zeta. split; [done|]. split.
  - by apply func_read_audio_run with (bytes := bytes).
  - apply wrap32_small.
Qed.

(** C6.  When the session record cannot be allocated, or the service cannot
    open the path, [func_open] returns null; the heap is what it was before
    the call (the record, when it was allocated, has been freed), and the
    only calls made are the allocation, the failed [AVIFileOpen] and the
    [GlobalFree] of the record: no service handle was acquired. *)
Theorem func_open_failure (file : string) (s : State) :
  let size := sizeof_FILE_HANDLE E in
  let fp := env_GlobalAlloc E (log s) size in
  let opened := env_AVIFileOpen E (log s ++ [CGlobalAlloc size fp]) file in
  (fp <> NULL -> heap s !! fp = None) ->
  fp = NULL \/ opened.1 <> S_OK ->
  exists s', func_open E file s = Ok NULL s' /\
    heap s' = heap s /\
    log s' = log s ++
      (if decide (fp = NULL) then [CGlobalAlloc size NULL]
       else [CGlobalAlloc size fp; CAVIFileOpen file opened.1 opened.2;
             CGlobalFree fp]).
Proof.
  intros size fp opened Hnew Hfail.
  destruct opened as [hr pf] eqn:Hopen. subst opened. cbn [fst snd] in *.
  unfold func_open, bind at 1, GlobalAlloc.
  fold size. fold fp.
  destruct (decide (fp = NULL)) as [Hnull|Hnn].
  - eexists. split; [reflexivity|]. cbn. by rewrite Hnull.
  - destruct Hfail as [?|Hhr]; [done|].
    unfold bind at 1, ZeroMemory. unfold bind at 1, AVIFileOpen. cbn [log].
    rewrite Hopen.
    unfold bind at 1. unfold store, bind at 1. unfold load.
    rewrite decide_False by done. cbn [heap emit].
    rewrite lookup_insert_eq. cbn [heap log].
    rewrite decide_True by done.
    eexists. split; [reflexivity|]. cbn [heap log]. split.
    + cbn [heap emit]. rewrite !insert_insert_eq, delete_insert_eq.
      apply delete_id. auto.
    + cbn [log emit]. by rewrite <- !app_assoc.
Qed.

(** C9.  On a live session, [func_info_get] returns [true] with the state
    unchanged, log included (it makes no service call), and the info record
    holds the cached rate, scale, length, format pointer and size of each
    side whose flag is set; [func_read_video] and [func_read_audio] return
    with the heap unchanged; and so after any sequence of the three the
    session record is the one [func_open] left. *)
Theorem session_not_mutated_after_open (ih : Z) (h : FILE_HANDLE) (s : State) :
  ih <> NULL -> heap s !! ih = Some (BSession h) ->
  (forall iip, exists r,
     func_info_get ih iip s = Ok (true, r) s /\
     (HasVideo h ->
        ii_rate r = wrap32 (dwRate (videoinfo h)) /\
        ii_scale r = wrap32 (dwScale (videoinfo h)) /\
        ii_n r = wrap32 (dwLength (videoinfo h)) /\
        ii_format r = videoformat h /\ ii_format_size r = videoformatsize h) /\
     (HasAudio h ->
        ii_audio_n r = wrap32 (dwLength (audioinfo h)) /\
        ii_audio_format r = audioformat h /\
        ii_audio_format_size r = audioformatsize h)) /\
  (forall frame buf, exists r s',
     func_read_video E ih frame buf s = Ok r s' /\ heap s' = heap s) /\
  (forall start len buf bytes w,
     audioformat h <> NULL ->
     heap s !! audioformat h = Some (BBuffer (Some bytes)) ->
     read_WORD bytes nBlockAlign_offset = Some w ->
     exists r s',
       func_read_audio E ih start len buf s = Ok r s' /\ heap s' = heap s) /\
  (forall ops s', run_ops E ih ops s = Ok tt s' ->
     heap s' = heap s /\ heap s' !! ih = Some (BSession h)).
Proof.
  intros Hn Hh. split; [|split; [|split]].
  - intros iip.
    destruct (func_info_get_run ih h s iip Hn Hh) as (r & Hr & _ & Hv & Ha).
    exists r. auto.
  - intros frame buf.
    destruct (env_AVIStreamRead E (log s) (pvideo h) frame 1 NULL 0)
      as [[hr1 videosize] n1] eqn:H1.
    destruct (func_read_video_run E ih h s frame buf Hn Hh _ _ _ H1) as [Hf Hok].
    destruct (decide (hr1 = S_OK)) as [Hhr|Hhr].
    + destruct (env_AVIStreamRead E
                  (log s ++ [CAVIStreamRead (pvideo h) frame 1 NULL 0 true false
                               hr1 videosize n1])
                  (pvideo h) frame 1 buf videosize) as [[hr2 size] n2] eqn:H2.
      eexists _, _. split; [exact (Hok Hhr _ _ _ eq_refl) | done].
    + eexists _, _. split; [exact (Hf Hhr) | done].
  - intros start len buf bytes w Hnn Hb Hw.
    destruct (env_AVIStreamRead E (log s) (paudio h) start len buf (wrap32 (w * len)))
      as [[hr nbytes] nsamples] eqn:Hr.
    eexists _, _. split.
    + eapply func_read_audio_run; eassumption.
    + reflexivity.
  - intros ops s' Hops. apply run_ops_heap in Hops.
    split; [exact Hops | by rewrite Hops].
Qed.

End Claims.

Section OpenClaims.
Variable E : Env.

(** C2, as amended.  For the session [func_open] returns (given an
    allocator that does not hand out the live record again, and a service
    that answers [S_OK] with non-null stream handles only): when the video
    flag is set the video stream handle is non-null, and the video format
    pointer is non-null provided at most one video stream was enumerated;
    when the audio flag is set the audio stream handle is non-null.  The
    record stays as it is over any sequence of [func_info_get],
    [func_read_video] and [func_read_audio]. *)
Theorem func_open_session_invariant (file : string) (s : State) :
  let size := sizeof_FILE_HANDLE E in
  let fp := env_GlobalAlloc E (log s) size in
  fp <> NULL -> keeps_live E fp ->
  (forall pas, got_stream E pas -> pas <> NULL) ->
  (env_AVIFileOpen E (log s ++ [CGlobalAlloc size fp]) file).1 = S_OK ->
  exists s' h evs,
    func_open E file s = Ok fp s' /\
    heap s' !! fp = Some (BSession h) /\ log s' = log s ++ evs /\
    (HasVideo h -> pvideo h <> NULL) /\
    (HasAudio h -> paudio h <> NULL) /\
    ((length (streams_of streamtypeVIDEO evs) <= 1)%nat ->
     HasVideo h -> videoformat h <> NULL) /\
    (forall ops s'', run_ops E fp ops s' = Ok tt s'' ->
       heap s'' !! fp = Some (BSession h)).
Proof.
  intros size fp Hfp Hlive Hnn Hopen.
  destruct (returns_inv _ _ _ (func_open_opened E file s Hfp Hlive Hopen))
    as (r & s' & Hrun & -> & h & evs & (_ & Hh & Hlog) & Hinv).
  exists s', h, evs. split; [exact Hrun|]. split; [exact Hh|].
  split; [exact Hlog|]. destruct Hinv as [_ _ Hvh Hah _ _ Hvb _].
  split; [auto|]. split; [auto|]. split; [exact Hvb|].
  intros ops s'' Hops. apply run_ops_heap in Hops. by rewrite Hops.
Qed.

(** C3, as amended.  [func_open] does not look whether a stream of the same
    type was claimed before: each video (audio) stream the service reports
    overwrites the session's video (audio) handle and stream info.  The
    session therefore holds the handle and info of the last stream of each
    type, and [func_info_get], when the flag is set, reports the rate, scale
    and length of that last stream.  No handle is released for being a
    duplicate: [func_open] releases at most one handle for each stream that
    is not a video stream and one for each allocation that fails. *)
Theorem func_open_retains_last_stream (file : string) (s : State)
    (iip : INPUT_INFO) :
  let size := sizeof_FILE_HANDLE E in
  let fp := env_GlobalAlloc E (log s) size in
  fp <> NULL -> keeps_live E fp ->
  (env_AVIFileOpen E (log s ++ [CGlobalAlloc size fp]) file).1 = S_OK ->
  exists s' h evs,
    func_open E file s = Ok fp s' /\
    heap s' !! fp = Some (BSession h) /\ log s' = log s ++ evs /\
    (forall pas asi,
       last (streams_of streamtypeVIDEO evs) = Some (pas, asi) ->
       pvideo h = pas /\ videoinfo h = asi /\
       (HasVideo h -> exists r,
          func_info_get fp iip s' = Ok (true, r) s' /\
          ii_rate r = wrap32 (dwRate asi) /\ ii_scale r = wrap32 (dwScale asi) /\
          ii_n r = wrap32 (dwLength asi))) /\
    (forall pas asi,
       last (streams_of streamtypeAUDIO evs) = Some (pas, asi) ->
       paudio h = pas /\ audioinfo h = asi /\
       (HasAudio h -> exists r,
          func_info_get fp iip s' = Ok (true, r) s' /\
          ii_audio_n r = wrap32 (dwLength asi))) /\
    (count is_release evs <=
       count not_video_stream evs + count failed_alloc evs)%nat.
Proof.
  intros size fp Hfp Hlive Hopen.
  destruct (returns_inv _ _ _ (func_open_opened E file s Hfp Hlive Hopen))
    as (r & s' & Hrun & -> & h & evs & (_ & Hh & Hlog) & Hinv).
  exists s', h, evs. split; [exact Hrun|]. split; [exact Hh|].
  split; [exact Hlog|]. destruct Hinv as [Hvl Hal _ _ _ _ _ Hrel].
  destruct (func_info_get_run fp h s' iip Hfp Hh) as (r & Hr & _ & Hiv & Hia).
  split; [|split; [|exact Hrel]].
  - intros pas asi Hlast. destruct (Hvl _ _ Hlast) as [Hp Hi].
    split; [exact Hp|]. split; [exact Hi|]. intros Hv. exists r.
    split; [exact Hr|]. rewrite <- Hi. destruct (Hiv Hv) as (? & ? & ? & _). auto.
  - intros pas asi Hlast. destruct (Hal _ _ Hlast) as [Hp Hi].
    split; [exact Hp|]. split; [exact Hi|]. intros Ha. exists r.
    split; [exact Hr|]. rewrite <- Hi. by destruct (Hia Ha) as (? & _).
Qed.

(** C10, as amended.  The read functions check neither flags nor handles.
    [func_read_audio] faults on a null dereference exactly when the
    session's audio format pointer is null, whatever the audio flag;
    [func_read_video] makes its first call on the session's video stream
    handle, whatever its value and whatever the video flag.  When
    [func_open] enumerated no audio stream the audio flag is unset and the
    audio format pointer is null; when it enumerated no video stream the
    video flag is unset and the video stream handle is null. *)
Theorem reads_do_not_validate (file : string) (s : State) :
  let size := sizeof_FILE_HANDLE E in
  let fp := env_GlobalAlloc E (log s) size in
  fp <> NULL -> keeps_live E fp ->
  (env_AVIFileOpen E (log s ++ [CGlobalAlloc size fp]) file).1 = S_OK ->
  exists s' h evs,
    func_open E file s = Ok fp s' /\
    heap s' !! fp = Some (BSession h) /\ log s' = log s ++ evs /\
    (forall start len buf,
       func_read_audio E fp start len buf s' = Crash NullDereference <->
       audioformat h = NULL) /\
    (forall frame buf, exists hr bytes n rest r s'',
       func_read_video E fp frame buf s' = Ok r s'' /\
       log s'' = log s' ++
         CAVIStreamRead (pvideo h) frame 1 NULL 0 true false hr bytes n :: rest) /\
    (streams_of streamtypeAUDIO evs = [] -> ~ HasAudio h /\ audioformat h = NULL) /\
    (streams_of streamtypeVIDEO evs = [] -> ~ HasVideo h /\ pvideo h = NULL).
Proof.
  intros size fp Hfp Hlive Hopen.
  destruct (returns_inv _ _ _ (func_open_opened E file s Hfp Hlive Hopen))
    as (r & s' & Hrun & -> & h & evs & (_ & Hh & Hlog) & Hinv).
  exists s', h, evs. split; [exact Hrun|]. split; [exact Hh|].
  split; [exact Hlog|]. destruct Hinv as [_ _ _ _ Hva Haa _ _].
  split; [|split; [|split]].
  - intros start len buf. by apply func_read_audio_null.
  - intros frame buf.
    destruct (env_AVIStreamRead E (log s') (pvideo h) frame 1 NULL 0)
      as [[hr1 videosize] n1] eqn:H1.
    destruct (func_read_video_run E fp h s' frame buf Hfp Hh _ _ _ H1) as [Hf Hok].
    exists hr1, videosize, n1.
    destruct (decide (hr1 = S_OK)) as [Hhr|Hhr].
    + destruct (env_AVIStreamRead E
                  (log s' ++ [CAVIStreamRead (pvideo h) frame 1 NULL 0 true false
                                hr1 videosize n1])
                  (pvideo h) frame 1 buf videosize) as [[hr2 size2] n2] eqn:H2.
      eexists _, _, _. split; [exact (Hok Hhr _ _ _ eq_refl)|].
      cbn [log emit]. by rewrite <- app_assoc.
    + exists [], 0. eexists. split; [exact (Hf Hhr)|]. done.
  - intros Hnone. destruct (Haa Hnone) as (? & _ & ?). done.
  - intros Hnone. destruct (Hva Hnone) as (? & ? & _). done.
Qed.

End OpenClaims.

(** C1, at the failing input.  A file with a video stream and then an audio
    stream, where the allocation of the audio format buffer fails ([GlobalAlloc]
    of 18 bytes answers null): [func_open] tests [fp->videoformat], which
    is non-null, so it sets the audio flag on a null audio format pointer and
    releases no stream handle. *)
Theorem open_audio_alloc_failure_sets_flag :
  exists s h,
    func_open (fixture_env fx_av_audio_fail) "a.avi" s0 = Ok 65536 s /\
    heap s !! 65536 = Some (BSession h) /\
    CGlobalAlloc 18 NULL ∈ log s /\
    audioformat h = NULL /\ HasAudio h /\ paudio h = 1537 /\
    released (log s) = [].
Proof.
  exists (opened_state fx_av_audio_fail). eexists.
  split; [vm_compute; reflexivity|].
  split; [vm_compute; reflexivity|].
  split; [|by vm_compute].
  vm_compute. repeat (first [apply list_elem_of_here | apply list_elem_of_further]).
Qed.

(** Against C2 as stated: two video streams, the second format buffer cannot
    be allocated; the session returned has the video flag set (by the first
    stream) and a null video format pointer (by the second). *)
Lemma open_sets_HasVideo_with_null_format :
  exists s h,
    func_open (fixture_env fx_vv_fail) "a.avi" s0 = Ok 65536 s /\
    heap s !! 65536 = Some (BSession h) /\
    HasVideo h /\ videoformat h = NULL.
Proof.
  exists (opened_state fx_vv_fail). eexists.
  split; [vm_compute; reflexivity|].
  split; [vm_compute; reflexivity|]. by vm_compute.
Qed.

(** Against C3 as stated: with two video streams of 10 and 20 frames the
    session holds the second stream's handle, no handle is released, and
    [func_info_get] reports 20 frames. *)
Lemma open_retains_second_video_stream :
  exists s h r,
    func_open (fixture_env fx_vv) "a.avi" s0 = Ok 65536 s /\
    heap s !! 65536 = Some (BSession h) /\
    pvideo h = 1537 /\ released (log s) = [] /\
    func_info_get 65536 zero_INPUT_INFO s = Ok (true, r) s /\
    ii_n r = 20.
Proof.
  exists (opened_state fx_vv). eexists _, _.
  split; [vm_compute; reflexivity|].
  split; [vm_compute; reflexivity|].
  split; [reflexivity|]. split; [vm_compute; reflexivity|].
  split; [vm_compute; reflexivity|]. reflexivity.
Qed.

(** Against C10 as stated: one video stream whose format buffer cannot be
    allocated.  The video flag is unset, yet the session's video handle is
    the released, non-null stream handle, and [func_read_video] passes it to
    the service. *)
Lemma read_video_passes_released_handle :
  exists s h s',
    func_open (fixture_env fx_v_fail) "a.avi" s0 = Ok 65536 s /\
    heap s !! 65536 = Some (BSession h) /\
    ~ HasVideo h /\ pvideo h = 1536 /\ 1536 ∈ released (log s) /\
    func_read_video (fixture_env fx_v_fail) 65536 0 7777 s = Ok 6220800 s' /\
    log s' = log s ++
      [CAVIStreamRead 1536 0 1 NULL 0 true false S_OK 6220800 1;
       CAVIStreamRead 1536 0 1 7777 6220800 true false S_OK 6220800 1].
Proof.
  exists (opened_state fx_v_fail). eexists _, _.
  split; [vm_compute; reflexivity|].
  split; [vm_compute; reflexivity|].
  split; [vm_compute; auto|]. split; [reflexivity|].
  split; [vm_compute; apply list_elem_of_here|].
  split; [vm_compute; reflexivity|]. vm_compute. reflexivity.
Qed.

(** Against C5 as stated: block alignment 4, 100 samples asked.  The
    service reports 400 bytes and 100 samples; [func_read_audio] returns
    100. *)
Lemma func_read_audio_returns_sample_count :
  exists s',
    heap s_av !! 65536 = Some (BSession h_av) /\
    func_read_audio (fixture_env fx_av) 65536 0 100 7777 s_av = Ok 100 s' /\
    log s' = log s_av ++
      [CAVIStreamRead 1537 0 100 7777 400 false true S_OK 400 100].
Proof.
  eexists. split; [vm_compute; reflexivity|].
  split; [vm_compute; reflexivity|]. vm_compute. reflexivity.
Qed.

(** ** The theorems at concrete files *)

Lemma s_av_session : heap s_av !! 65536 = Some (BSession h_av).
Proof. vm_compute. reflexivity. Qed.

(** The scenario of the two-stream file: 10 frames at 30/1, 1000 samples. *)
Example info_of_two_stream_file :
  func_info_get 65536 zero_INPUT_INFO s_av =
  Ok (true,
      {| ii_flag := 3; ii_rate := 30; ii_scale := 1; ii_n := 10;
         ii_format := 69632; ii_format_size := 40;
         ii_audio_n := 1000; ii_audio_format := 73728;
         ii_audio_format_size := 18 |}) s_av.
Proof. vm_compute. reflexivity. Qed.

(** A frame index past the last frame: the size query fails, the result
    is 0 and no second call is made. *)
Example read_video_out_of_range :
  exists s', func_read_video (fixture_env fx_av) 65536 10 7777 s_av = Ok 0 s' /\
    log s' = log s_av ++ [CAVIStreamRead 1536 10 1 NULL 0 true false E_FAIL 0 0].
Proof. eexists. split; vm_compute; reflexivity. Qed.

Lemma s_av_audio_format :
  heap s_av !! audioformat h_av = Some (BBuffer (Some (sx_format (audio_fx 1000)))).
Proof. vm_compute. reflexivity. Qed.

Lemma func_open_session_invariant_witness :
  exists s' h evs,
    func_open (fixture_env fx_av) "a.avi" s0 = Ok 65536 s' /\
    heap s' !! 65536 = Some (BSession h) /\ log s' = log s0 ++ evs /\
    (HasVideo h -> pvideo h <> NULL) /\
    (HasAudio h -> paudio h <> NULL) /\
    ((length (streams_of streamtypeVIDEO evs) <= 1)%nat ->
     HasVideo h -> videoformat h <> NULL) /\
    (forall ops s'', run_ops (fixture_env fx_av) 65536 ops s' = Ok tt s'' ->
       heap s'' !! 65536 = Some (BSession h)).
Proof.
  apply (func_open_session_invariant (fixture_env fx_av) "a.avi" s0).
  - discriminate.
  - apply fixture_keeps_live.
  - apply fixture_streams_nonnull.
  - reflexivity.
Defined.

Lemma func_open_retains_last_stream_witness :
  exists s' h evs,
    func_open (fixture_env fx_vv) "a.avi" s0 = Ok 65536 s' /\
    heap s' !! 65536 = Some (BSession h) /\ log s' = log s0 ++ evs /\
    (forall pas asi,
       last (streams_of streamtypeVIDEO evs) = Some (pas, asi) ->
       pvideo h = pas /\ videoinfo h = asi /\
       (HasVideo h -> exists r,
          func_info_get 65536 zero_INPUT_INFO s' = Ok (true, r) s' /\
          ii_rate r = wrap32 (dwRate asi) /\ ii_scale r = wrap32 (dwScale asi) /\
          ii_n r = wrap32 (dwLength asi))) /\
    (forall pas asi,
       last (streams_of streamtypeAUDIO evs) = Some (pas, asi) ->
       paudio h = pas /\ audioinfo h = asi /\
       (HasAudio h -> exists r,
          func_info_get 65536 zero_INPUT_INFO s' = Ok (true, r) s' /\
          ii_audio_n r = wrap32 (dwLength asi))) /\
    (count is_release evs <=
       count not_video_stream evs + count failed_alloc evs)%nat.
Proof.
  apply (func_open_retains_last_stream (fixture_env fx_vv) "a.avi" s0 zero_INPUT_INFO).
  - discriminate.
  - apply fixture_keeps_live.
  - reflexivity.
Defined.

Lemma reads_do_not_validate_witness :
  exists s' h evs,
    func_open (fixture_env fx_v_fail) "a.avi" s0 = Ok 65536 s' /\
    heap s' !! 65536 = Some (BSession h) /\ log s' = log s0 ++ evs /\
    (forall start len buf,
       func_read_audio (fixture_env fx_v_fail) 65536 start len buf s'
         = Crash NullDereference <-> audioformat h = NULL) /\
    (forall frame buf, exists hr bytes n rest r s'',
       func_read_video (fixture_env fx_v_fail) 65536 frame buf s' = Ok r s'' /\
       log s'' = log s' ++
         CAVIStreamRead (pvideo h) frame 1 NULL 0 true false hr bytes n :: rest) /\
    (streams_of streamtypeAUDIO evs = [] -> ~ HasAudio h /\ audioformat h = NULL) /\
    (streams_of streamtypeVIDEO evs = [] -> ~ HasVideo h /\ pvideo h = NULL).
Proof.
  apply (reads_do_not_validate (fixture_env fx_v_fail) "a.avi" s0).
  - discriminate.
  - apply fixture_keeps_live.
  - reflexivity.
Defined.

Lemma func_read_video_two_phase_witness :
  exists hr1 videosize n1,
    env_AVIStreamRead (fixture_env fx_av) (log s_av) 1536 3 1 NULL 0
      = (hr1, videosize, n1) /\
    let q := CAVIStreamRead 1536 3 1 NULL 0 true false hr1 videosize n1 in
    (hr1 <> S_OK ->
     func_read_video (fixture_env fx_av) 65536 3 7777 s_av = Ok 0 (emit q s_av)) /\
    (hr1 = S_OK ->
     exists hr2 size n2,
       env_AVIStreamRead (fixture_env fx_av) (log s_av ++ [q]) 1536 3 1 7777 videosize
         = (hr2, size, n2) /\
       let r := CAVIStreamRead 1536 3 1 7777 videosize true false hr2 size n2 in
       func_read_video (fixture_env fx_av) 65536 3 7777 s_av =
         Ok (if decide (hr2 = S_OK) then size else 0) (emit r (emit q s_av))).
Proof.
  apply (func_read_video_two_phase (fixture_env fx_av) 65536 h_av s_av 3 7777).
  - discriminate.
  - exact s_av_session.
Defined.

Lemma func_read_audio_returns_samples_witness :
  exists hr nbytes nsamples,
    let cap := wrap32 (4 * 100) in
    env_AVIStreamRead (fixture_env fx_av) (log s_av) 1537 0 100 7777 cap
      = (hr, nbytes, nsamples) /\
    func_read_audio (fixture_env fx_av) 65536 0 100 7777 s_av =
      Ok (if decide (hr = S_OK) then nsamples else 0)
         (emit (CAVIStreamRead 1537 0 100 7777 cap false true
                  hr nbytes nsamples) s_av) /\
    (- 2 ^ 31 <= 4 * 100 < 2 ^ 31 -> cap = 4 * 100).
Proof.
  apply (func_read_audio_returns_samples (fixture_env fx_av) 65536 h_av s_av
           0 100 7777 (sx_format (audio_fx 1000)) 4).
  - discriminate.
  - exact s_av_session.
  - discriminate.
  - exact s_av_audio_format.
  - reflexivity.
Defined.

Lemma func_open_failure_witness :
  exists s', func_open (fixture_env fx_missing) "a.avi" s0 = Ok NULL s' /\
    heap s' = heap s0 /\
    log s' = log s0 ++
      [CGlobalAlloc 592 65536; CAVIFileOpen "a.avi" E_FAIL NULL; CGlobalFree 65536].
Proof.
  apply (func_open_failure (fixture_env fx_missing) "a.avi" s0).
  - intros _. reflexivity.
  - right. discriminate.
Defined.

Lemma func_close_release_order_witness :
  exists s', func_close 65536 s_av = Ok true s' /\
    log s' = log s_av ++
      [CAVIStreamRelease 1537; CGlobalFree 73728;
       CAVIStreamRelease 1536; CGlobalFree 69632;
       CAVIFileRelease 1280; CGlobalFree 65536] /\
    heap s' = delete 65536 (delete 69632 (delete 73728 (heap s_av))) /\
    heap s' !! 65536 = None /\
    (HasAudio h_av -> heap s' !! 73728 = None) /\
    (HasVideo h_av -> heap s' !! 69632 = None).
Proof.
  apply (func_close_release_order 65536 h_av s_av).
  - discriminate.
  - exact s_av_session.
  - intros _. discriminate.
  - intros _. discriminate.
Defined.

Lemma func_close_always_true_witness :
  (exists s', func_close 65536 s_av = Ok true s' /\ (65536 = NULL -> s' = s_av)) /\
  (exists s', func_close NULL s_av = Ok true s' /\ (NULL = NULL -> s' = s_av)).
Proof.
  split.
  - apply (proj2 (func_close_always_true 65536 s_av)).
    right. exists h_av. split; [exact s_av_session|].
    split; intros _; discriminate.
  - apply (proj2 (func_close_always_true NULL s_av)). by left.
Defined.

Lemma session_not_mutated_after_open_witness :
  (forall iip, exists r,
     func_info_get 65536 iip s_av = Ok (true, r) s_av /\
     (HasVideo h_av ->
        ii_rate r = wrap32 (dwRate (videoinfo h_av)) /\
        ii_scale r = wrap32 (dwScale (videoinfo h_av)) /\
        ii_n r = wrap32 (dwLength (videoinfo h_av)) /\
        ii_format r = videoformat h_av /\
        ii_format_size r = videoformatsize h_av) /\
     (HasAudio h_av ->
        ii_audio_n r = wrap32 (dwLength (audioinfo h_av)) /\
        ii_audio_format r = audioformat h_av /\
        ii_audio_format_size r = audioformatsize h_av)) /\
  (forall frame buf, exists r s',
     func_read_video (fixture_env fx_av) 65536 frame buf s_av = Ok r s' /\
     heap s' = heap s_av) /\
  (forall start len buf bytes w,
     audioformat h_av <> NULL ->
     heap s_av !! audioformat h_av = Some (BBuffer (Some bytes)) ->
     read_WORD bytes nBlockAlign_offset = Some w ->
     exists r s',
       func_read_audio (fixture_env fx_av) 65536 start len buf s_av = Ok r s' /\
       heap s' = heap s_av) /\
  (forall ops s', run_ops (fixture_env fx_av) 65536 ops s_av = Ok tt s' ->
     heap s' = heap s_av /\ heap s' !! 65536 = Some (BSession h_av)).
Proof.
  apply (session_not_mutated_after_open (fixture_env fx_av) 65536 h_av s_av).
  - discriminate.
  - exact s_av_session.
Defined.

(** * Further properties

    What the rest of the code shows, beyond the claims above. *)

(** ** The stream loop, turn by turn *)

Section Turns.
Variable E : Env.
Variable fp : Z.
Hypothesis Hfresh : keeps_live E fp.

Ltac snoc_live H :=
  rewrite live_snoc; apply live_step_keep; [intros ?; discriminate | exact H].
Ltac live_next Hs H H' :=
  match type of Hs with
  | session _ _ ?l _ => assert (H' : live l fp = true) by snoc_live H
  end.
Ltac turned Hs Hl :=
  rewrite <- ?app_assoc in Hs, Hl;
  eexists _, _; split; [exact Hs | split; [exact Hl|]].

Lemma open_stream_turn i h l s :
  session fp h l s -> live l fp = true ->
  returns (open_stream E fp i) s (fun _ s' =>
    exists h' t, session fp h' (l ++ t) s' /\ live (l ++ t) fp = true /\
                 turn fp i h t h').
Proof.
  intros Hs Hl. unfold open_stream.
  apply returns_bind. eapply returns_load; [eassumption|].
  apply returns_bind. eapply returns_AVIFileGetStream; [eassumption|].
  intros hr pas s1 Hget Hs1. live_next Hs1 Hl Hl1.
  case_decide as Hhr.
  2:{ apply returns_ret. turned Hs1 Hl1. exact (turn_no_stream fp i h hr pas Hhr). }
  subst hr.
  apply returns_bind. eapply returns_AVIStreamInfo; [eassumption|].
  intros s2 Hs2. set (asi := env_AVIStreamInfo E _ pas) in *.
  live_next Hs2 Hl1 Hl2.
  case_decide as Hv; [|case_decide as Ha].
  - apply returns_bind. eapply returns_store; [eassumption|]. intros s3 Hs3.
    apply returns_bind. eapply returns_store; [eassumption|]. intros s4 Hs4.
    apply returns_bind. eapply returns_load; [eassumption|].
    apply returns_bind. eapply returns_AVIStreamFormatSize; [eassumption|].
    intros size s5 Hs5. live_next Hs5 Hl2 Hl5.
    apply returns_bind. eapply returns_store; [eassumption|]. intros s6 Hs6.
    apply returns_bind. eapply returns_load; [eassumption|].
    assert (Hpfp : env_GlobalAlloc E
              (((l ++ [CAVIFileGetStream (pfile h) 0 (wrap32 i) S_OK pas]) ++
                [CAVIStreamInfo pas asi]) ++
               [CAVIStreamFormatSize (pvideo (set_videoinfo asi (set_pvideo pas h))) 0 size])
              (videoformatsize (set_videoformatsize size
                 (set_videoinfo asi (set_pvideo pas h)))) <> fp)
      by (by apply Hfresh).
    apply returns_bind.
    eapply returns_GlobalAlloc; [eassumption | exact Hpfp |].
    intros s7 p Hs7. live_next Hs7 Hl5 Hl7. fold p in Hpfp.
    apply returns_bind. eapply returns_store; [eassumption|]. intros s8 Hs8.
    apply returns_bind. eapply returns_load; [eassumption|].
    case_decide as Hp.
    + apply returns_bind. eapply returns_AVIStreamReadFormat; [eassumption|].
      intros cb' s9 Hs9. live_next Hs9 Hl7 Hl9.
      apply returns_bind. eapply returns_store; [eassumption|]. intros s10 Hs10.
      eapply returns_store; [eassumption|]. intros s11 Hs11.
      turned Hs11 Hl9. exact (turn_video fp i h pas asi size p cb' Hv Hp Hpfp).
    + eapply returns_AVIStreamRelease; [eassumption|]. intros s9 Hs9.
      live_next Hs9 Hl7 Hl9.
      assert (Hnull : p = NULL).
      { cbn in Hp. destruct (decide (p = NULL)); [done | by destruct Hp]. }
      clearbody p. subst p.
      turned Hs9 Hl9. exact (turn_video_nomem fp i h pas asi size Hv).
  - apply returns_bind. eapply returns_store; [eassumption|]. intros s3 Hs3.
    apply returns_bind. eapply returns_store; [eassumption|]. intros s4 Hs4.
    apply returns_bind. eapply returns_load; [eassumption|].
    apply returns_bind. eapply returns_AVIStreamFormatSize; [eassumption|].
    intros size s5 Hs5. live_next Hs5 Hl2 Hl5.
    apply returns_bind. eapply returns_store; [eassumption|]. intros s6 Hs6.
    apply returns_bind. eapply returns_load; [eassumption|].
    assert (Hpfp : env_GlobalAlloc E
              (((l ++ [CAVIFileGetStream (pfile h) 0 (wrap32 i) S_OK pas]) ++
                [CAVIStreamInfo pas asi]) ++
               [CAVIStreamFormatSize (paudio (set_audioinfo asi (set_paudio pas h))) 0 size])
              (audioformatsize (set_audioformatsize size
                 (set_audioinfo asi (set_paudio pas h)))) <> fp)
      by (by apply Hfresh).
    apply returns_bind.
    eapply returns_GlobalAlloc; [eassumption | exact Hpfp |].
    intros s7 p Hs7. live_next Hs7 Hl5 Hl7. fold p in Hpfp.
    apply returns_bind. eapply returns_store; [eassumption|]. intros s8 Hs8.
    apply returns_bind. eapply returns_load; [eassumption|].
    case_decide as Hp.
    + apply returns_bind. eapply returns_AVIStreamReadFormat; [eassumption|].
      intros cb' s9 Hs9. live_next Hs9 Hl7 Hl9.
      apply returns_bind. eapply returns_store; [eassumption|]. intros s10 Hs10.
      eapply returns_store; [eassumption|]. intros s11 Hs11.
      turned Hs11 Hl9. exact (turn_audio fp i h pas asi size p cb' Ha Hp Hpfp).
    + eapply returns_AVIStreamRelease; [eassumption|]. intros s9 Hs9.
      live_next Hs9 Hl7 Hl9.
      assert (Hnull : videoformat h = NULL).
      { cbn in Hp. destruct (decide (videoformat h = NULL)); [done | by destruct Hp]. }
      turned Hs9 Hl9. exact (turn_audio_skip fp i h pas asi size p Ha Hnull Hpfp).
  - eapply returns_AVIStreamRelease; [eassumption|]. intros s3 Hs3.
    live_next Hs3 Hl2 Hl3.
    turned Hs3 Hl3. exact (turn_other fp i h pas asi Hv Ha).
Qed.

Lemma stream_loop_turns n : forall i h l s,
  session fp h l s -> live l fp = true ->
  returns (stream_loop E fp i n) s (fun _ s' =>
    exists h' ts, session fp h' (l ++ ts) s' /\ turns fp i n h ts h').
Proof.
  induction n as [|n IH]; intros i h l s Hs Hl; cbn [stream_loop].
  - apply returns_ret. exists h, []. rewrite app_nil_r. split; [done|constructor].
  - apply returns_bind.
    eapply returns_weaken; [|eapply open_stream_turn; eassumption].
    intros [] s1 (h1 & t & Hs1 & Hl1 & Ht). cbn beta.
    eapply returns_weaken; [|eapply IH; eassumption].
    intros [] s2 (h2 & ts & Hs2 & Hts).
    exists h2, (t ++ ts). rewrite app_assoc. split; [done|].
    econstructor; eassumption.
Qed.

End Turns.

Section OpenTurns.
Variable E : Env.

(** A successful [func_open], as its three leading calls and the turns of
    its loop from the zeroed record. *)
Lemma func_open_turns file s :
  let size := sizeof_FILE_HANDLE E in
  let fp := env_GlobalAlloc E (log s) size in
  fp <> NULL -> keeps_live E fp ->
  (env_AVIFileOpen E (log s ++ [CGlobalAlloc size fp]) file).1 = S_OK ->
  returns (func_open E file) s (fun r s' =>
    r = fp /\ exists h pf hr fi ts,
      env_AVIFileOpen E (log s ++ [CGlobalAlloc size fp]) file = (S_OK, pf) /\
      session fp h
        (log s ++ [CGlobalAlloc size fp; CAVIFileOpen file S_OK pf;
                   CAVIFileInfo pf hr fi] ++ ts) s' /\
      turns fp 0 (stream_turns hr fi)
        (set_fileinfo fi (set_pfile pf zero_FILE_HANDLE)) ts h).
Proof.
  intros size fp Hfp Hfresh Hopen. unfold func_open.
  apply returns_bind. unfold returns at 1, GlobalAlloc. fold size. fold fp.
  rewrite decide_False by done.
  apply returns_bind. unfold returns at 1, ZeroMemory. cbn [heap log].
  set (s1 := {| heap := _; log := _ |}).
  assert (Hs1 : session fp zero_FILE_HANDLE (log s ++ [CGlobalAlloc size fp]) s1).
  { split; [done|]. split; [apply lookup_insert_eq | done]. }
  assert (Hl1 : live (log s ++ [CGlobalAlloc size fp]) fp = true).
  { rewrite live_snoc. cbn. by rewrite decide_True. }
  apply returns_bind. eapply returns_AVIFileOpen; [eassumption|].
  intros hr0 pf s2 Hopen2 Hs2. rewrite Hopen2 in Hopen. cbn in Hopen. subst hr0.
  apply returns_bind. eapply returns_store; [eassumption|]. intros s3 Hs3.
  rewrite decide_False by (intros H; by apply H).
  apply returns_bind. eapply returns_load; [eassumption|].
  apply returns_bind. eapply returns_AVIFileInfo; [eassumption|]. intros hr fi s4 Hs4.
  apply returns_bind. eapply returns_store; [eassumption|]. intros s5 Hs5.
  rewrite <- !app_assoc in Hs5. cbn [app] in Hs5.
  change (pfile (set_pfile pf zero_FILE_HANDLE)) with pf in Hs5.
  assert (Hl5 : live (log s ++ [CGlobalAlloc size fp; CAVIFileOpen file S_OK pf;
                                CAVIFileInfo pf hr fi]) fp = true).
  { change (log s ++ [?a; ?b; ?c]) with (log s ++ [a] ++ [b] ++ [c]).
    rewrite !app_assoc.
    do 2 (rewrite live_snoc; apply live_step_keep; [intros ?; discriminate|]).
    exact Hl1. }
  apply returns_bind. unfold stream_turns.
  destruct (decide (hr = S_OK)) as [Hhr|Hhr].
  - apply returns_bind. eapply returns_load; [eassumption|].
    eapply returns_weaken; [|eapply stream_loop_turns; eassumption].
    intros [] s6 (h6 & ts & Hs6 & Hts). cbn beta.
    apply returns_ret. split; [done|].
    exists h6, pf, hr, fi, ts. rewrite <- app_assoc in Hs6.
    split; [exact Hopen2|]. split; [exact Hs6|].
    rewrite decide_True by done. exact Hts.
  - apply returns_ret. apply returns_ret. split; [done|].
    eexists _, pf, hr, fi, []. rewrite app_nil_r.
    split; [done|]. split; [exact Hs5|].
    rewrite decide_False by done. constructor.
Qed.

(** The two ways [func_open] fails, run. *)
Lemma func_open_null_run file s :
  let size := sizeof_FILE_HANDLE E in
  let fp := env_GlobalAlloc E (log s) size in
  fp = NULL \/ (env_AVIFileOpen E (log s ++ [CGlobalAlloc size fp]) file).1 <> S_OK ->
  exists s', func_open E file s = Ok NULL s'.
Proof.
  intros size fp Hfail.
  destruct (env_AVIFileOpen E (log s ++ [CGlobalAlloc size fp]) file)
    as [hr pf] eqn:Hopen. cbn [fst] in Hfail.
  unfold func_open, bind at 1, GlobalAlloc. fold size. fold fp.
  destruct (decide (fp = NULL)) as [Hnull|Hnn]; [by eexists|].
  destruct Hfail as [?|Hhr]; [done|].
  unfold bind at 1, ZeroMemory. unfold bind at 1, AVIFileOpen. cbn [log].
  rewrite Hopen.
  unfold bind at 1. unfold store, bind at 1. unfold load.
  rewrite decide_False by done. cbn [heap emit].
  rewrite lookup_insert_eq. cbn [heap log].
  rewrite decide_True by done. by eexists.
Qed.

End OpenTurns.

(** ** What the turns keep *)

Lemma getstream_args_app l1 l2 :
  getstream_args (l1 ++ l2) = getstream_args l1 ++ getstream_args l2.
Proof. apply omap_app. Qed.

Lemma turn_pfile fp i h t h' : turn fp i h t h' -> pfile h' = pfile h.
Proof. by destruct 1. Qed.

Lemma turn_getstream fp i h t h' :
  turn fp i h t h' -> getstream_args t = [(pfile h, 0, wrap32 i)].
Proof. by destruct 1. Qed.

Lemma turns_getstream fp i n h ts h' :
  turns fp i n h ts h' ->
  pfile h' = pfile h /\
  getstream_args ts = (fun k => (pfile h, 0, wrap32 k)) <$> seqZ i (Z.of_nat n).
Proof.
  induction 1 as [|i n h t h1 ts h2 Ht Hts [IHp IHg]]; [done|].
  split; [by rewrite IHp, (turn_pfile _ _ _ _ _ Ht)|].
  rewrite getstream_args_app, (turn_getstream _ _ _ _ _ Ht), IHg.
  rewrite (turn_pfile _ _ _ _ _ Ht).
  rewrite Nat2Z.inj_succ, (seqZ_cons i), Z.pred_succ by lia.
  cbn. by rewrite Z.add_1_r.
Qed.

Lemma turn_counts fp i h t h' :
  turn fp i h t h' ->
  count is_free t = 0%nat /\ count is_file_release t = 0%nat /\
  count is_alloc t =
    (length (streams_of streamtypeVIDEO t) + length (streams_of streamtypeAUDIO t))%nat.
Proof.
  pose proof streamtype_distinct.
  destruct 1; cbn [count is_free is_file_release is_alloc];
    (split; [done|]); (split; [done|]); streams.
Qed.

Lemma turns_counts fp i n h ts h' :
  turns fp i n h ts h' ->
  count is_free ts = 0%nat /\ count is_file_release ts = 0%nat /\
  count is_alloc ts =
    (length (streams_of streamtypeVIDEO ts) + length (streams_of streamtypeAUDIO ts))%nat.
Proof.
  induction 1 as [|i n h t h1 ts h2 Ht Hts (IHf & IHr & IHa)]; [done|].
  destruct (turn_counts _ _ _ _ _ Ht) as (Hf & Hr & Ha).
  rewrite !count_app, !streams_of_app, !length_app. lia.
Qed.

(** Until a video format buffer has been allocated, no audio stream is
    flagged. *)
Lemma turn_audio_needs_video fp i h t h' :
  turn fp i h t h' ->
  videoformat h = NULL -> ~ HasAudio h ->
  streams_of streamtypeVIDEO t = [] ->
  videoformat h' = NULL /\ ~ HasAudio h'.
Proof.
  destruct 1 as [| ? ? ? ? ? Hv | ? ? ? Hv | | |]; intros Hnull Hno Hnone;
    try done; revert Hnone; streams; done.
Qed.

Lemma turns_audio_needs_video fp i n h ts h' :
  turns fp i n h ts h' ->
  videoformat h = NULL -> ~ HasAudio h ->
  streams_of streamtypeVIDEO ts = [] ->
  videoformat h' = NULL /\ ~ HasAudio h'.
Proof.
  induction 1 as [|i n h t h1 ts h2 Ht Hts IH]; [done|].
  intros Hnull Hno. rewrite streams_of_app. intros [Ht0 Hts0]%app_eq_nil.
  destruct (turn_audio_needs_video _ _ _ _ _ Ht Hnull Hno Ht0). auto.
Qed.

(** The format pointers are never the record's own address. *)
Lemma turn_formats fp i h t h' :
  turn fp i h t h' -> fp <> NULL ->
  videoformat h <> fp -> audioformat h <> fp ->
  videoformat h' <> fp /\ audioformat h' <> fp.
Proof. destruct 1; cbn; intros; split; congruence. Qed.

Lemma turns_formats fp i n h ts h' :
  turns fp i n h ts h' -> fp <> NULL ->
  videoformat h <> fp -> audioformat h <> fp ->
  videoformat h' <> fp /\ audioformat h' <> fp.
Proof.
  induction 1 as [|i n h t h1 ts h2 Ht Hts IH]; [done|].
  intros Hfp Hv Ha. destruct (turn_formats _ _ _ _ _ Ht Hfp Hv Ha). auto.
Qed.

(** While no video format buffer is allocated, a turn that meets no video
    stream leaves the flags as they are. *)
Lemma turn_without_video fp i h t h' :
  turn fp i h t h' ->
  videoformat h = NULL -> streams_of streamtypeVIDEO t = [] ->
  videoformat h' = NULL /\ flag h' = flag h.
Proof.
  destruct 1 as [| ? ? ? ? ? Hv | ? ? ? Hv | | |]; intros Hnull Hnone;
    try done; revert Hnone; streams; done.
Qed.

Lemma turns_without_video fp i n h ts h' :
  turns fp i n h ts h' ->
  videoformat h = NULL -> streams_of streamtypeVIDEO ts = [] ->
  videoformat h' = NULL /\ flag h' = flag h.
Proof.
  induction 1 as [|i n h t h1 ts h2 Ht Hts IH]; [done|].
  intros Hnull. rewrite streams_of_app. intros [Ht0 Hts0]%app_eq_nil.
  destruct (turn_without_video _ _ _ _ _ Ht Hnull Ht0) as [Hn1 Hf1].
  destruct (IH Hn1 Hts0) as [Hn2 Hf2]. split; congruence.
Qed.

Section OpenMore.
Variable E : Env.

(** X1.  [func_open] always returns, given that the allocator, when it
    hands out the record, does not hand out that block again while it is
    live (nothing is asked of an allocator that fails).  Its result is null
    exactly when the record cannot be allocated or [AVIFileOpen] does not
    answer [S_OK]; otherwise it is the address of the record, which is
    live.  No failure of [AVIFileInfo], of [AVIFileGetStream] or of a format
    buffer allocation makes [func_open] fail. *)
Theorem func_open_null_iff (file : string) (s : State) :
  let size := sizeof_FILE_HANDLE E in
  let fp := env_GlobalAlloc E (log s) size in
  let opened := env_AVIFileOpen E (log s ++ [CGlobalAlloc size fp]) file in
  (fp <> NULL -> keeps_live E fp) ->
  exists r s', func_open E file s = Ok r s' /\
    (r = NULL <-> fp = NULL \/ opened.1 <> S_OK) /\
    (r <> NULL -> r = fp /\ exists h, heap s' !! fp = Some (BSession h)).
Proof.
  intros size fp opened Hlive.
  destruct (decide (fp = NULL \/ opened.1 <> S_OK)) as [Hfail|Hok].
  - destruct (func_open_null_run E file s Hfail) as (s' & Hrun).
    exists NULL, s'. split; [exact Hrun|]. split; [tauto | done].
  - assert (Hfp : fp <> NULL) by tauto.
    assert (Hopen : opened.1 = S_OK).
    { destruct (decide (opened.1 = S_OK)); tauto. }
    destruct (returns_inv _ _ _ (func_open_opened E file s Hfp (Hlive Hfp) Hopen))
      as (r & s' & Hrun & -> & h & evs & (_ & Hh & _) & _).
    exists fp, s'. split; [exact Hrun|]. split; [tauto|]. eauto.
Qed.

(** X2.  A successful [func_open] asks the service for the streams 0, 1,
    ..., n-1 of the file it opened, in this order and for any stream type
    (fccType 0), where n is the [dwStreams] that [AVIFileInfo] reported, and
    0 when [AVIFileInfo] failed; a stream the service refuses does not stop
    the enumeration. *)
Theorem func_open_enumerates_streams (file : string) (s : State) :
  let size := sizeof_FILE_HANDLE E in
  let fp := env_GlobalAlloc E (log s) size in
  fp <> NULL -> keeps_live E fp ->
  (env_AVIFileOpen E (log s ++ [CGlobalAlloc size fp]) file).1 = S_OK ->
  exists s' pf hr fi ts,
    func_open E file s = Ok fp s' /\
    log s' = log s ++ [CGlobalAlloc size fp; CAVIFileOpen file S_OK pf;
                       CAVIFileInfo pf hr fi] ++ ts /\
    getstream_args ts =
      (fun k => (pf, 0, wrap32 k)) <$> seqZ 0 (Z.of_nat (stream_turns hr fi)).
Proof.
  intros size fp Hfp Hlive Hopen.
  destruct (returns_inv _ _ _ (func_open_turns E file s Hfp Hlive Hopen))
    as (r & s' & Hrun & -> & h & pf & hr & fi & ts & _ & (_ & _ & Hlog) & Hts).
  exists s', pf, hr, fi, ts. split; [exact Hrun|]. split; [exact Hlog|].
  by destruct (turns_getstream _ _ _ _ _ _ Hts) as [_ ->].
Qed.

(** X3.  A successful [func_open] calls [GlobalAlloc] once for the record
    and once for each video and each audio stream the service reports,
    streams of a type met before included; it calls neither [GlobalFree] nor
    [AVIFileRelease]. *)
Theorem func_open_allocates_per_stream (file : string) (s : State) :
  let size := sizeof_FILE_HANDLE E in
  let fp := env_GlobalAlloc E (log s) size in
  fp <> NULL -> keeps_live E fp ->
  (env_AVIFileOpen E (log s ++ [CGlobalAlloc size fp]) file).1 = S_OK ->
  exists s' evs,
    func_open E file s = Ok fp s' /\ log s' = log s ++ evs /\
    count is_alloc evs =
      (1 + length (streams_of streamtypeVIDEO evs)
         + length (streams_of streamtypeAUDIO evs))%nat /\
    count is_free evs = 0%nat /\ count is_file_release evs = 0%nat.
Proof.
  intros size fp Hfp Hlive Hopen.
  destruct (returns_inv _ _ _ (func_open_turns E file s Hfp Hlive Hopen))
    as (r & s' & Hrun & -> & h & pf & hr & fi & ts & _ & (_ & _ & Hlog) & Hts).
  eexists s', _. split; [exact Hrun|]. split; [exact Hlog|].
  destruct (turns_counts _ _ _ _ _ _ Hts) as (Hf & Hr & Ha).
  rewrite !count_app, !streams_of_app, !length_app, Hf, Hr, Ha.
  repeat split; cbn; lia.
Qed.

(** X4.  When the service reports no video stream, the session [func_open]
    returns has no flag set, whatever audio streams the file has: the audio
    branch sets its flag only while [fp->videoformat] is non-null. *)
Theorem func_open_audio_needs_video (file : string) (s : State) :
  let size := sizeof_FILE_HANDLE E in
  let fp := env_GlobalAlloc E (log s) size in
  fp <> NULL -> keeps_live E fp ->
  (env_AVIFileOpen E (log s ++ [CGlobalAlloc size fp]) file).1 = S_OK ->
  exists s' h evs,
    func_open E file s = Ok fp s' /\
    heap s' !! fp = Some (BSession h) /\ log s' = log s ++ evs /\
    (streams_of streamtypeVIDEO evs = [] -> flag h = 0).
Proof.
  intros size fp Hfp Hlive Hopen.
  destruct (returns_inv _ _ _ (func_open_turns E file s Hfp Hlive Hopen))
    as (r & s' & Hrun & -> & h & pf & hr & fi & ts & _ & (_ & Hh & Hlog) & Hts).
  eexists s', h, _. split; [exact Hrun|]. split; [exact Hh|].
  split; [exact Hlog|]. rewrite streams_of_app.
  intros [_ Hnone]%app_eq_nil.
  by destruct (turns_without_video _ _ _ _ _ _ Hts eq_refl Hnone) as [_ ->].
Qed.

(** X5.  [func_close] on what [func_open] returned always returns [true],
    whether [func_open] failed or not, given that the allocator, when it
    hands out the record, does not hand out that block again while it is
    live (nothing is asked of an allocator that fails).  After a successful
    [func_open] it frees the record, and its last two calls release the
    file handle that [AVIFileOpen] returned and free the record, after the
    releases of the flagged sides. *)
Theorem open_then_close (file : string) (s : State) :
  let size := sizeof_FILE_HANDLE E in
  let fp := env_GlobalAlloc E (log s) size in
  let opened := env_AVIFileOpen E (log s ++ [CGlobalAlloc size fp]) file in
  (fp <> NULL -> keeps_live E fp) ->
  exists ih s1 s2,
    func_open E file s = Ok ih s1 /\ func_close ih s1 = Ok true s2 /\
    (ih = NULL <-> fp = NULL \/ opened.1 <> S_OK) /\
    (ih <> NULL ->
     ih = fp /\ heap s2 !! ih = None /\
     exists h, heap s1 !! ih = Some (BSession h) /\
       log s2 = log s1 ++ close_audio h ++ close_video h ++
                [CAVIFileRelease opened.2; CGlobalFree ih]).
Proof.
  intros size fp opened Hlive.
  destruct (decide (fp = NULL \/ opened.1 <> S_OK)) as [Hfail|Hok].
  - destruct (func_open_null_run E file s Hfail) as (s' & Hrun).
    exists NULL, s', s'. split; [exact Hrun|]. split; [reflexivity|].
    split; [tauto | done].
  - assert (Hfp : fp <> NULL) by tauto.
    assert (Hopen : opened.1 = S_OK).
    { destruct (decide (opened.1 = S_OK)); tauto. }
    destruct (returns_inv _ _ _ (func_open_turns E file s Hfp (Hlive Hfp) Hopen))
      as (r & s1 & Hrun & -> & h & pf & hr & fi & ts & Hpf & (_ & Hh & Hlog) & Hts).
    destruct (turns_getstream _ _ _ _ _ _ Hts) as [Hpfile _].
    destruct (turns_formats _ _ _ _ _ _ Hts Hfp) as [Hvf Haf];
      [intros Heq; apply Hfp; symmetry; exact Heq ..|].
    destruct (func_close_run fp h s1 Hfp Hh (fun _ => Haf) (fun _ => Hvf))
      as (s2 & Hclose & Hgone & Hlog2).
    exists fp, s1, s2. split; [exact Hrun|]. split; [exact Hclose|].
    split; [tauto|].
    intros _. split; [done|]. split; [exact Hgone|].
    exists h. split; [exact Hh|]. rewrite Hlog2, Hpfile.
    subst opened fp size. by rewrite Hpf.
Qed.

End OpenMore.

(** ** Handles that are null or closed *)

Lemma load_closed fp s :
  fp <> NULL -> heap s !! fp = None -> load fp s = Crash InvalidPointer.
Proof. intros Hn Hh. unfold load. by rewrite decide_False, Hh. Qed.

Lemma bind_Crash {A B} (m : M A) (k : A -> M B) s f :
  m s = Crash f -> bind m k s = Crash f.
Proof. unfold bind. by intros ->. Qed.

(** X6.  Only [func_close] tests its handle: [func_info_get],
    [func_read_video] and [func_read_audio] on the null handle dereference
    null.  After [func_close] on a live session, each of the four
    operations on the closed handle, a second [func_close] included, reads
    through a pointer to freed memory. *)
Theorem stale_handle_faults (E : Env) (ih : Z) (h : FILE_HANDLE) (s : State) :
  ih <> NULL -> heap s !! ih = Some (BSession h) ->
  (HasAudio h -> audioformat h <> ih) -> (HasVideo h -> videoformat h <> ih) ->
  (forall iip, func_info_get NULL iip s = Crash NullDereference) /\
  (forall frame buf, func_read_video E NULL frame buf s = Crash NullDereference) /\
  (forall start len buf,
     func_read_audio E NULL start len buf s = Crash NullDereference) /\
  exists s', func_close ih s = Ok true s' /\
    (forall iip, func_info_get ih iip s' = Crash InvalidPointer) /\
    (forall frame buf, func_read_video E ih frame buf s' = Crash InvalidPointer) /\
    (forall start len buf,
       func_read_audio E ih start len buf s' = Crash InvalidPointer) /\
    func_close ih s' = Crash InvalidPointer.
Proof.
  intros Hn Hh Ha Hv.
  split; [done|]. split; [done|]. split; [done|].
  destruct (func_close_run ih h s Hn Hh Ha Hv) as (s' & Hrun & Hgone & _).
  exists s'. split; [exact Hrun|].
  pose proof (load_closed ih s' Hn Hgone) as Hload.
  split; [|split; [|split]].
  - intros iip. unfold func_info_get. by apply bind_Crash.
  - intros frame buf. unfold func_read_video. by apply bind_Crash.
  - intros start len buf. unfold func_read_audio. by apply bind_Crash.
  - unfold func_close. rewrite decide_True by done.
    apply bind_Crash. by apply bind_Crash.
Qed.

(** ** What [func_close] frees *)

(** X7.  [func_close] frees the record, the audio format buffer when the
    audio flag is set and the video format buffer when the video flag is
    set, and leaves every other block of the heap as it was: other sessions
    and their buffers, and a format buffer whose flag is unset. *)
Theorem func_close_frees_its_blocks (ih : Z) (h : FILE_HANDLE) (s : State) :
  ih <> NULL -> heap s !! ih = Some (BSession h) ->
  (HasAudio h -> audioformat h <> ih) -> (HasVideo h -> videoformat h <> ih) ->
  exists s', func_close ih s = Ok true s' /\
    forall q,
      (freed_by_close ih h q -> heap s' !! q = None) /\
      (~ freed_by_close ih h q -> heap s' !! q = heap s !! q).
Proof.
  intros Hn Hh Ha Hv.
  destruct (func_close_heap ih h s Hn Hh Ha Hv) as (s' & Hrun & Hheap).
  exists s'. split; [exact Hrun|]. intros q. rewrite Hheap.
  unfold freed_by_close.
  destruct (decide (q = ih)) as [->|Hq].
  { rewrite lookup_delete_eq. split; [done|]. intros Hnot. destruct Hnot. by left. }
  rewrite lookup_delete_ne by done.
  destruct (decide (HasVideo h)) as [Hhv|Hhv];
    destruct (decide (HasAudio h)) as [Hha|Hha]; cbn [id];
    repeat match goal with
    | |- context [delete ?p _ !! q] =>
        destruct (decide (p = q)) as [<-|];
        [rewrite lookup_delete_eq | rewrite lookup_delete_ne by done]
    end;
    split; intros; try done; intuition congruence.
Qed.

(** ** What [func_info_get] writes *)

(** X9.  [func_info_get] discards the flag field the caller passed and sets
    exactly the bits of the flagged sides; the video fields of the caller's
    record are left as the caller had them when the video flag is unset,
    and the audio fields when the audio flag is unset. *)
Theorem func_info_get_writes_flagged_sides (ih : Z) (h : FILE_HANDLE) (s : State)
    (iip : INPUT_INFO) :
  ih <> NULL -> heap s !! ih = Some (BSession h) ->
  exists r, func_info_get ih iip s = Ok (true, r) s /\
    ii_flag r =
      Z.lor (if decide (HasVideo h) then INPUT_INFO_FLAG_VIDEO else 0)
            (if decide (HasAudio h) then INPUT_INFO_FLAG_AUDIO else 0) /\
    (~ HasVideo h ->
       ii_rate r = ii_rate iip /\ ii_scale r = ii_scale iip /\
       ii_n r = ii_n iip /\ ii_format r = ii_format iip /\
       ii_format_size r = ii_format_size iip) /\
    (~ HasAudio h ->
       ii_audio_n r = ii_audio_n iip /\ ii_audio_format r = ii_audio_format iip /\
       ii_audio_format_size r = ii_audio_format_size iip).
Proof.
  intros Hn Hh. unfold func_info_get.
  rewrite (bind_Ok _ _ _ _ _ (load_Ok ih h s Hn Hh)).
  rewrite (bind_Ok _ _ _ _ _ (load_Ok ih h s Hn Hh)).
  change (decide (HasAudio h)) with (decide (Z.land (flag h) FLAG_AUDIO <> 0)).
  change (decide (HasVideo h)) with (decide (Z.land (flag h) FLAG_VIDEO <> 0)).
  unfold HasVideo, HasAudio.
  destruct (decide (Z.land (flag h) FLAG_AUDIO <> 0)) as [Hau|Hau];
    destruct (decide (Z.land (flag h) FLAG_VIDEO <> 0)) as [Hvi|Hvi];
    eexists; (split; [reflexivity|]); cbn; tauto.
Qed.

(** ** Other sessions during [func_open] *)

Section Keeps.
Variable E : Env.
Variable q : Z.
Variable hq : FILE_HANDLE.
Hypothesis Hq : keeps_live E q.

Lemma keeps_ret {A} (a : A) : keeps q hq (ret a).
Proof. intros s a' s' [= <- <-]. auto. Qed.

Lemma keeps_bind {A B} (m : M A) (k : A -> M B) :
  keeps q hq m -> (forall a, keeps q hq (k a)) -> keeps q hq (bind m k).
Proof.
  intros Hm Hk s b s' Hrun Hl Hh. unfold bind in Hrun.
  destruct (m s) as [a s1|] eqn:Hms; [|done].
  destruct (Hm _ _ _ Hms Hl Hh) as [Hl1 Hh1]. by apply (Hk a s1 b s').
Qed.

(** The same, when the rest runs only on the values [m] can return. *)
Lemma keeps_bind_val {A B} (P : A -> Prop) (m : M A) (k : A -> M B) :
  (forall s a s', m s = Ok a s' -> live (log s) q = true -> P a) ->
  keeps q hq m -> (forall a, P a -> keeps q hq (k a)) -> keeps q hq (bind m k).
Proof.
  intros HP Hm Hk s b s' Hrun Hl Hh. unfold bind in Hrun.
  destruct (m s) as [a s1|] eqn:Hms; [|done].
  destruct (Hm _ _ _ Hms Hl Hh) as [Hl1 Hh1].
  by apply (Hk a (HP _ _ _ Hms Hl) s1 b s').
Qed.

Lemma keeps_load fp : keeps q hq (load fp).
Proof.
  intros s a s' Hrun. unfold load in Hrun.
  destruct (decide (fp = NULL)); [done|].
  destruct (heap s !! fp) as [[|]|]; try done. by injection Hrun as _ <-.
Qed.

Lemma keeps_store fp f : fp <> q -> keeps q hq (store fp f).
Proof.
  intros Hne. unfold store. apply keeps_bind; [apply keeps_load|].
  intros h s a s' [= _ <-] Hl Hh. cbn. by rewrite lookup_insert_ne.
Qed.

Lemma keeps_ZeroMemory fp : fp <> q -> keeps q hq (ZeroMemory fp).
Proof.
  intros Hne s a s' Hrun Hl Hh. unfold ZeroMemory in Hrun.
  injection Hrun as _ <-. cbn. by rewrite lookup_insert_ne.
Qed.

Lemma live_snoc_keep l c :
  (forall size, c <> CGlobalAlloc size q) -> (c <> CGlobalFree q) ->
  live l q = true -> live (l ++ [c]) q = true.
Proof.
  intros Ha Hf Hl. rewrite live_snoc, Hl.
  destruct c; cbn; try done; case_decide; try done. subst. by destruct Hf.
Qed.

Lemma keeps_GlobalAlloc size : keeps q hq (GlobalAlloc E size).
Proof.
  intros s a s' Hrun Hl Hh. unfold GlobalAlloc in Hrun.
  injection Hrun as <- <-. cbn [heap log].
  pose proof (Hq (log s) size Hl) as Hne. split.
  - apply live_snoc_keep; [|done..]. intros ? [= _ ?]. done.
  - case_decide; [done|]. by rewrite lookup_insert_ne.
Qed.

Lemma GlobalAlloc_other size s p s' :
  GlobalAlloc E size s = Ok p s' -> live (log s) q = true -> p <> q.
Proof.
  intros Hrun Hl. unfold GlobalAlloc in Hrun. injection Hrun as <- _.
  by apply Hq.
Qed.

Lemma keeps_GlobalFree p : p <> q -> keeps q hq (GlobalFree p).
Proof.
  intros Hne s a s' Hrun Hl Hh. unfold GlobalFree in Hrun.
  injection Hrun as _ <-. cbn [heap log]. split.
  - apply live_snoc_keep; [done | congruence | done].
  - by rewrite lookup_delete_ne.
Qed.

Lemma keeps_AVIStreamReadFormat pas lPos lpFormat cb :
  keeps q hq (AVIStreamReadFormat E pas lPos lpFormat cb).
Proof.
  intros s a s' Hrun Hl Hh. unfold AVIStreamReadFormat in Hrun.
  destruct (env_AVIStreamReadFormat _ _ _ _ _ _) as [cb' data].
  injection Hrun as _ <-. cbn [heap log]. split.
  - by apply live_snoc_keep.
  - destruct (heap s !! lpFormat) as [[|]|] eqn:Hp; try done.
    destruct data; [|done].
    rewrite lookup_insert_ne; [done|]. intros ->. congruence.
Qed.

Lemma keeps_AVIFileOpen file : keeps q hq (AVIFileOpen E file).
Proof.
  intros s a s' Hrun Hl Hh. unfold AVIFileOpen in Hrun.
  destruct (env_AVIFileOpen _ _ _). injection Hrun as _ <-.
  split; [by apply live_snoc_keep | done].
Qed.

Lemma keeps_AVIFileInfo pf : keeps q hq (AVIFileInfo E pf).
Proof.
  intros s a s' Hrun Hl Hh. unfold AVIFileInfo in Hrun.
  destruct (env_AVIFileInfo _ _ _). injection Hrun as _ <-.
  split; [by apply live_snoc_keep | done].
Qed.

Lemma keeps_AVIFileGetStream pf fcc i : keeps q hq (AVIFileGetStream E pf fcc i).
Proof.
  intros s a s' Hrun Hl Hh. unfold AVIFileGetStream in Hrun.
  destruct (env_AVIFileGetStream _ _ _ _ _). injection Hrun as _ <-.
  split; [by apply live_snoc_keep | done].
Qed.

Lemma keeps_AVIStreamInfo pas : keeps q hq (AVIStreamInfo E pas).
Proof.
  intros s a s' Hrun Hl Hh. unfold AVIStreamInfo in Hrun. injection Hrun as _ <-.
  split; [by apply live_snoc_keep | done].
Qed.

Lemma keeps_AVIStreamFormatSize pas lPos : keeps q hq (AVIStreamFormatSize E pas lPos).
Proof.
  intros s a s' Hrun Hl Hh. unfold AVIStreamFormatSize in Hrun. injection Hrun as _ <-.
  split; [by apply live_snoc_keep | done].
Qed.

Lemma keeps_AVIStreamRelease pas : keeps q hq (AVIStreamRelease pas).
Proof.
  intros s a s' Hrun Hl Hh. unfold AVIStreamRelease in Hrun. injection Hrun as _ <-.
  split; [by apply live_snoc_keep | done].
Qed.

Ltac keeps_steps :=
  repeat first
    [ apply keeps_ret
    | apply keeps_load
    | apply keeps_store; assumption
    | apply keeps_AVIFileGetStream
    | apply keeps_AVIStreamInfo
    | apply keeps_AVIStreamFormatSize
    | apply keeps_AVIStreamReadFormat
    | apply keeps_AVIStreamRelease
    | apply keeps_GlobalAlloc
    | apply keeps_bind; [|intros ?]
    | case_decide
    | match goal with
      | |- keeps _ _ (let '(_, _) := ?x in _) => destruct x
      end ].

Lemma keeps_open_stream fp i : fp <> q -> keeps q hq (open_stream E fp i).
Proof. intros Hne. unfold open_stream. keeps_steps. Qed.

Lemma keeps_stream_loop fp n : forall i, fp <> q -> keeps q hq (stream_loop E fp i n).
Proof.
  induction n as [|n IH]; intros i Hne; cbn [stream_loop].
  - apply keeps_ret.
  - apply keeps_bind; [by apply keeps_open_stream | intros _; by apply IH].
Qed.

Lemma keeps_func_open file : keeps q hq (func_open E file).
Proof.
  unfold func_open.
  apply (keeps_bind_val (fun p => p <> q));
    [apply GlobalAlloc_other | apply keeps_GlobalAlloc |].
  intros fp Hne. case_decide; [apply keeps_ret|].
  apply keeps_bind; [by apply keeps_ZeroMemory | intros _].
  apply keeps_bind; [apply keeps_AVIFileOpen | intros [hr pf]].
  apply keeps_bind; [by apply keeps_store | intros _].
  case_decide.
  { apply keeps_bind; [by apply keeps_GlobalFree | intros _; apply keeps_ret]. }
  apply keeps_bind; [apply keeps_load | intros h].
  apply keeps_bind; [apply keeps_AVIFileInfo | intros [hr2 fi]].
  apply keeps_bind; [by apply keeps_store | intros _].
  apply keeps_bind; [|intros _; apply keeps_ret].
  case_decide; [|apply keeps_ret].
  apply keeps_bind; [apply keeps_load | intros h2].
  by apply keeps_stream_loop.
Qed.

End Keeps.

(** X8.  While a session record is live, and the allocator does not hand
    out its block again, a [func_open] of another file leaves that record
    as it is, whether the new [func_open] succeeds or fails. *)
Theorem func_open_keeps_other_sessions (E : Env) (file : string) (s s' : State)
    (q r : Z) (hq : FILE_HANDLE) :
  keeps_live E q -> live (log s) q = true ->
  heap s !! q = Some (BSession hq) ->
  func_open E file s = Ok r s' ->
  heap s' !! q = Some (BSession hq) /\ live (log s') q = true.
Proof.
  intros Hq Hl Hh Hrun.
  destruct (keeps_func_open E q hq Hq file s r s' Hrun Hl Hh). done.
Qed.

(** ** The life of the DLL *)

Lemma avi_calls_app l1 l2 : avi_calls (l1 ++ l2) = avi_calls l1 ++ avi_calls l2.
Proof. apply List.filter_app. Qed.

Lemma run_quiet_op answer op l b l' :
  quiet op -> run_proc_op answer op l = (b, l') ->
  b = true /\ avi_calls l' = avi_calls l.
Proof.
  intros Hop Hrun.
  destruct op as [hinst reason reserved | hwnd hinst]; cbn in Hrun, Hop.
  - destruct Hop as [Hna Hnd]. unfold DllMain, pbind in Hrun.
    rewrite !decide_False in Hrun by done. cbn in Hrun.
    by injection Hrun as <- <-.
  - unfold func_config in Hrun. injection Hrun as <- <-.
    rewrite avi_calls_app. cbn. by rewrite app_nil_r.
Qed.

Lemma run_quiet_ops answer ops : forall l bs l',
  Forall quiet ops -> run_proc_ops answer ops l = (bs, l') ->
  bs = replicate (length ops) true /\ avi_calls l' = avi_calls l.
Proof.
  induction ops as [|op ops IH]; intros l bs l' Hq Hrun; cbn [run_proc_ops] in Hrun.
  - by injection Hrun as <- <-.
  - inversion Hq as [|? ? Hop Hops]; subst.
    unfold pbind in Hrun.
    destruct (run_proc_op answer op l) as [b l1] eqn:Hrun1.
    destruct (run_proc_ops answer ops l1) as [bs1 l2] eqn:Hrun2.
    injection Hrun as <- <-.
    destruct (run_quiet_op _ _ _ _ _ Hop Hrun1) as [-> Ha1].
    destruct (IH _ _ _ Hops Hrun2) as [-> Ha2].
    split; [done | congruence].
Qed.

Lemma run_detach answer hinst r1 l :
  run_proc_ops answer [Notify hinst DLL_PROCESS_DETACH r1] l =
  ([true], l ++ (if decide (r1 = NULL) then [CAVIFileExit] else [])).
Proof.
  cbn [run_proc_ops run_proc_op]. unfold pbind, DllMain, pbind.
  rewrite decide_False by done. rewrite decide_True by done.
  destruct (decide (r1 = NULL)) as [->|Hr1].
  - by rewrite decide_False by (intros H; by apply H).
  - rewrite decide_True by done. cbn. by rewrite app_nil_r.
Qed.

Lemma run_proc_ops_app answer ops1 ops2 l :
  run_proc_ops answer (ops1 ++ ops2) l =
  let '(bs1, l1) := run_proc_ops answer ops1 l in
  let '(bs2, l2) := run_proc_ops answer ops2 l1 in
  (bs1 ++ bs2, l2).
Proof.
  revert l. induction ops1 as [|op ops1 IH]; intros l; cbn [app run_proc_ops].
  - unfold pret. by destruct (run_proc_ops answer ops2 l).
  - unfold pbind at 1 3. destruct (run_proc_op answer op l) as [b l1].
    unfold pbind. rewrite IH.
    destruct (run_proc_ops answer ops1 l1) as [bs1 l2].
    unfold pret. cbn beta iota. by destruct (run_proc_ops answer ops2 l2).
Qed.

(** X10.  Over the life of the DLL, from the process attach to the process
    detach with any thread notifications and configuration requests in
    between, every [DllMain] returns [TRUE] and every [func_config] returns
    [true]; [AVIFileInit] is called once, at the attach, and [AVIFileExit]
    once, at the detach, unless the process is terminating ([lpvReserved]
    non-null), when it is not called at all. *)
Theorem dll_lifecycle (answer : list ProcCall -> Z) (hinst r0 r1 : Z)
    (mid : list ProcOp) (l : list ProcCall) :
  Forall quiet mid ->
  let ops := Notify hinst DLL_PROCESS_ATTACH r0 :: mid
             ++ [Notify hinst DLL_PROCESS_DETACH r1] in
  let run := run_proc_ops answer ops l in
  run.1 = replicate (length ops) true /\
  avi_calls run.2 =
    avi_calls l ++ CAVIFileInit :: (if decide (r1 = NULL) then [CAVIFileExit] else []).
Proof.
  intros Hq ops run. subst run ops.
  change (Notify hinst DLL_PROCESS_ATTACH r0 :: mid ++ ?d)
    with ([Notify hinst DLL_PROCESS_ATTACH r0] ++ mid ++ d).
  rewrite run_proc_ops_app.
  assert (Hattach : run_proc_ops answer [Notify hinst DLL_PROCESS_ATTACH r0] l
                    = ([true], l ++ [CAVIFileInit])).
  { cbn [run_proc_ops run_proc_op]. unfold pbind, DllMain, pbind.
    by rewrite decide_True by done. }
  rewrite Hattach. cbn beta iota. rewrite run_proc_ops_app.
  destruct (run_proc_ops answer mid (l ++ [CAVIFileInit])) as [bs l1] eqn:Hmid.
  destruct (run_quiet_ops _ _ _ _ _ Hq Hmid) as [-> Ha].
  rewrite run_detach. cbn [fst snd]. split.
  - rewrite !length_app. cbn. rewrite replicate_add. done.
  - rewrite avi_calls_app, Ha, avi_calls_app. cbn.
    rewrite <- app_assoc. by destruct (decide (r1 = NULL)).
Qed.

(** ** The further properties at concrete files *)

Lemma func_open_null_iff_witness :
  (exists r s', func_open (fixture_env fx_av) "a.avi" s0 = Ok r s' /\
     (r = NULL <-> 65536 = NULL \/ S_OK <> S_OK) /\
     (r <> NULL -> r = 65536 /\ exists h, heap s' !! 65536 = Some (BSession h))) /\
  (exists r s', func_open (fixture_env fx_nomem) "a.avi" s0 = Ok r s' /\
     (r = NULL <-> NULL = NULL \/ S_OK <> S_OK) /\
     (r <> NULL -> r = NULL /\ exists h, heap s' !! NULL = Some (BSession h))).
Proof.
  split.
  - apply (func_open_null_iff (fixture_env fx_av) "a.avi" s0).
    intros _. apply fixture_keeps_live.
  - apply (func_open_null_iff (fixture_env fx_nomem) "a.avi" s0).
    intros Hnn. exfalso. apply Hnn. reflexivity.
Defined.

Lemma func_open_enumerates_streams_witness :
  exists s' pf hr fi ts,
    func_open (fixture_env fx_av) "a.avi" s0 = Ok 65536 s' /\
    log s' = log s0 ++ [CGlobalAlloc 592 65536; CAVIFileOpen "a.avi" S_OK pf;
                        CAVIFileInfo pf hr fi] ++ ts /\
    getstream_args ts =
      (fun k => (pf, 0, wrap32 k)) <$> seqZ 0 (Z.of_nat (stream_turns hr fi)).
Proof.
  apply (func_open_enumerates_streams (fixture_env fx_av) "a.avi" s0).
  - discriminate.
  - apply fixture_keeps_live.
  - reflexivity.
Defined.

Lemma func_open_allocates_per_stream_witness :
  exists s' evs,
    func_open (fixture_env fx_vv) "a.avi" s0 = Ok 65536 s' /\
    log s' = log s0 ++ evs /\
    count is_alloc evs =
      (1 + length (streams_of streamtypeVIDEO evs)
         + length (streams_of streamtypeAUDIO evs))%nat /\
    count is_free evs = 0%nat /\ count is_file_release evs = 0%nat.
Proof.
  apply (func_open_allocates_per_stream (fixture_env fx_vv) "a.avi" s0).
  - discriminate.
  - apply fixture_keeps_live.
  - reflexivity.
Defined.

Lemma func_open_audio_needs_video_witness :
  exists s' h evs,
    func_open (fixture_env fx_a) "a.avi" s0 = Ok 65536 s' /\
    heap s' !! 65536 = Some (BSession h) /\ log s' = log s0 ++ evs /\
    (streams_of streamtypeVIDEO evs = [] -> flag h = 0).
Proof.
  apply (func_open_audio_needs_video (fixture_env fx_a) "a.avi" s0).
  - discriminate.
  - apply fixture_keeps_live.
  - reflexivity.
Defined.

Lemma open_then_close_witness :
  (exists ih s1 s2,
     func_open (fixture_env fx_av) "a.avi" s0 = Ok ih s1 /\
     func_close ih s1 = Ok true s2 /\
     (ih = NULL <-> 65536 = NULL \/ S_OK <> S_OK) /\
     (ih <> NULL ->
      ih = 65536 /\ heap s2 !! ih = None /\
      exists h, heap s1 !! ih = Some (BSession h) /\
        log s2 = log s1 ++ close_audio h ++ close_video h ++
                 [CAVIFileRelease 1280; CGlobalFree ih])) /\
  (exists ih s1 s2,
     func_open (fixture_env fx_nomem) "a.avi" s0 = Ok ih s1 /\
     func_close ih s1 = Ok true s2 /\
     (ih = NULL <-> NULL = NULL \/ S_OK <> S_OK) /\
     (ih <> NULL ->
      ih = NULL /\ heap s2 !! ih = None /\
      exists h, heap s1 !! ih = Some (BSession h) /\
        log s2 = log s1 ++ close_audio h ++ close_video h ++
                 [CAVIFileRelease 1280; CGlobalFree ih])).
Proof.
  split.
  - apply (open_then_close (fixture_env fx_av) "a.avi" s0).
    intros _. apply fixture_keeps_live.
  - apply (open_then_close (fixture_env fx_nomem) "a.avi" s0).
    intros Hnn. exfalso. apply Hnn. reflexivity.
Defined.

Lemma stale_handle_faults_witness :
  (forall iip, func_info_get NULL iip s_av = Crash NullDereference) /\
  (forall frame buf,
     func_read_video (fixture_env fx_av) NULL frame buf s_av = Crash NullDereference) /\
  (forall start len buf,
     func_read_audio (fixture_env fx_av) NULL start len buf s_av
       = Crash NullDereference) /\
  exists s', func_close 65536 s_av = Ok true s' /\
    (forall iip, func_info_get 65536 iip s' = Crash InvalidPointer) /\
    (forall frame buf,
       func_read_video (fixture_env fx_av) 65536 frame buf s' = Crash InvalidPointer) /\
    (forall start len buf,
       func_read_audio (fixture_env fx_av) 65536 start len buf s'
         = Crash InvalidPointer) /\
    func_close 65536 s' = Crash InvalidPointer.
Proof.
  apply (stale_handle_faults (fixture_env fx_av) 65536 h_av s_av).
  - discriminate.
  - exact s_av_session.
  - intros _. discriminate.
  - intros _. discriminate.
Defined.

Lemma func_close_frees_its_blocks_witness :
  exists s', func_close 65536 s_av = Ok true s' /\
    forall q,
      (freed_by_close 65536 h_av q -> heap s' !! q = None) /\
      (~ freed_by_close 65536 h_av q -> heap s' !! q = heap s_av !! q).
Proof.
  apply (func_close_frees_its_blocks 65536 h_av s_av).
  - discriminate.
  - exact s_av_session.
  - intros _. discriminate.
  - intros _. discriminate.
Defined.

Lemma func_open_keeps_other_sessions_witness :
  heap s_av2 !! 65536 = Some (BSession h_av) /\ live (log s_av2) 65536 = true.
Proof.
  apply (func_open_keeps_other_sessions (fixture_env fx_vv) "b.avi" s_av s_av2
           65536 77824 h_av).
  - apply fixture_keeps_live.
  - vm_compute. reflexivity.
  - exact s_av_session.
  - vm_compute. reflexivity.
Defined.

Lemma func_info_get_writes_flagged_sides_witness :
  exists r, func_info_get 65536 zero_INPUT_INFO s_av = Ok (true, r) s_av /\
    ii_flag r =
      Z.lor (if decide (HasVideo h_av) then INPUT_INFO_FLAG_VIDEO else 0)
            (if decide (HasAudio h_av) then INPUT_INFO_FLAG_AUDIO else 0) /\
    (~ HasVideo h_av ->
       ii_rate r = 0 /\ ii_scale r = 0 /\ ii_n r = 0 /\ ii_format r = NULL /\
       ii_format_size r = 0) /\
    (~ HasAudio h_av ->
       ii_audio_n r = 0 /\ ii_audio_format r = NULL /\ ii_audio_format_size r = 0).
Proof.
  apply (func_info_get_writes_flagged_sides 65536 h_av s_av zero_INPUT_INFO).
  - discriminate.
  - exact s_av_session.
Defined.

Lemma dll_lifecycle_witness :
  let ops := [Notify 4096 DLL_PROCESS_ATTACH 0; Notify 4096 2 0; Configure 77 4096;
              Notify 4096 3 0; Notify 4096 DLL_PROCESS_DETACH 0] in
  let run := run_proc_ops (fun _ => 1) ops [] in
  run.1 = replicate (length ops) true /\
  avi_calls run.2 = avi_calls [] ++ [CAVIFileInit; CAVIFileExit].
Proof.
  apply (dll_lifecycle (fun _ => 1) 4096 0 0
           [Notify 4096 2 0; Configure 77 4096; Notify 4096 3 0] []).
  repeat constructor; discriminate.
Defined.
